(** * update_component.py: the recipe updater of meta-rdk-wan

    A shallow embedding of [.github/scripts/update_component.py]:
    the branch resolver of [ComponentUpdater] (remote lookups, naming
    patterns, the recipe's recorded branch, the synthesised fallback) and
    the recipe rewrite of [update_bb_file] in both of its modes.

    Python strings are [list ascii].  Every [re.sub] and [str.replace] of
    the source is one left-to-right scan ([re_sub]) with a matcher written
    after the regular expression it embeds (leftmost match, greedy
    quantifiers with Python's backtracking, matching resumes after the
    match, [^] of [re.MULTILINE] at the start and after each newline).
    A replacement template built from an argument is parsed the way
    [re.sub] parses it ([parse_template]: its escapes, [\g<0>], and the
    [re.error] of a group reference or a bad escape, which the model
    reports as a raise); the source's constant templates hold no
    backslash and are used literally.  The organisation and the
    repository are interpolated unescaped into the source's patterns; the
    matchers read them as GitHub names (letters, digits, [-], [_], [.]),
    whose only metacharacter is [.], which matches any character but a
    newline, and the statements that depend on this assume such names.
    The literal [\.] of the pattern [github\.com] matches a dot only.
    [\d] is the ASCII digits and [\s] the ASCII whitespace of Python
    ([9..13], [28..32]). *)

From Stdlib Require Import Ascii String List Bool Arith ZArith Lia.
Import ListNotations.
Open Scope list_scope.

Abbreviation text := (list ascii).

(** A literal of the source. *)
Definition L (s : string) : text := list_ascii_of_string s.

Definition nl : ascii := ascii_of_nat 10.
Definition dq : ascii := ascii_of_nat 34.

(** ** String primitives *)

Fixpoint prefixb (p s : text) : bool :=
  match p, s with
  | [], _ => true
  | c :: p', d :: s' => Ascii.eqb c d && prefixb p' s'
  | _ :: _, [] => false
  end.

(** [p in s] *)
Fixpoint contains (p s : text) : bool :=
  prefixb p s ||
  match s with
  | [] => false
  | _ :: s' => contains p s'
  end.

Definition startswith (s p : text) : bool := prefixb p s.
Definition endswith (s p : text) : bool := prefixb (rev p) (rev s).

(** [s.split(sep)] for a one-character separator. *)
Fixpoint split_on (sep : ascii) (s : text) : list text :=
  match s with
  | [] => [[]]
  | c :: s' =>
      let r := split_on sep s' in
      if Ascii.eqb c sep then [] :: r
      else match r with
           | x :: rs => (c :: x) :: rs
           | [] => [[c]]
           end
  end.

(** [sep.join(l)] *)
Fixpoint join (sep : ascii) (l : list text) : text :=
  match l with
  | [] => []
  | [x] => x
  | x :: l' => x ++ sep :: join sep l'
  end.

(** [s.lstrip(c)] *)
Fixpoint lstrip (c : ascii) (s : text) : text :=
  match s with
  | d :: s' => if Ascii.eqb c d then lstrip c s' else s
  | [] => []
  end.

(** Python's [list.insert(i, x)]. *)
Definition py_insert {A} (l : list A) (i : nat) (x : A) : list A :=
  firstn i l ++ x :: skipn i l.

Definition is_digit (c : ascii) : bool :=
  let n := nat_of_ascii c in (48 <=? n) && (n <=? 57).

Definition is_space (c : ascii) : bool :=
  let n := nat_of_ascii c in
  ((9 <=? n) && (n <=? 13)) || ((28 <=? n) && (n <=? 32)).

Fixpoint skip_while (f : ascii -> bool) (s : text) : text :=
  match s with
  | c :: s' => if f c then skip_while f s' else s
  | [] => []
  end.

Fixpoint take_while (f : ascii -> bool) (s : text) : text :=
  match s with
  | c :: s' => if f c then c :: take_while f s' else []
  | [] => []
  end.

(** Python truthiness of an [Optional[str]]. *)
Definition truthy (o : option text) : bool :=
  match o with Some (_ :: _) => true | _ => false end.

(** ** Regular-expression substitution *)

(** A matcher sees whether the position is at a line start and the rest of
    the subject, and answers the length of the match there. *)
Definition matcher := bool -> text -> option nat.

(** [re.sub(pattern, repl, s)]: scan left to right; at a match of length
    [S k] emit [repl] and skip the [k] further characters it consumed.
    None of the source's patterns matches the empty string. *)
Fixpoint sub_go (m : matcher) (r : text) (skip : nat) (bol : bool) (s : text)
  : text :=
  match s with
  | [] => []
  | c :: s' =>
      match skip with
      | S k => sub_go m r k (Ascii.eqb c nl) s'
      | O =>
          match m bol s with
          | Some (S k) => r ++ sub_go m r k (Ascii.eqb c nl) s'
          | _ => c :: sub_go m r 0 (Ascii.eqb c nl) s'
          end
      end
  end.

Definition re_sub (m : matcher) (r s : text) : text := sub_go m r 0 true s.

(** A literal pattern, and the same anchored by [^] under [re.MULTILINE]. *)
Definition m_lit (p : text) : matcher :=
  fun _ s => if prefixb p s then Some (length p) else None.

Definition m_lit_bol (p : text) : matcher :=
  fun bol s => if bol && prefixb p s then Some (length p) else None.

(** [s.replace(old, new)] (with a non-empty [old]). *)
Definition py_replace (old new s : text) : text := re_sub (m_lit old) new s.

(** ** Replacement templates *)

Definition bs : ascii := ascii_of_nat 92.

(** A piece of a parsed template: a character, or [\g<0>], the whole match
    (the source's patterns have no groups, so it is the only valid group
    reference). *)
Inductive tpiece := TChar (c : ascii) | TWhole.

Definition is_octal (c : ascii) : bool :=
  let n := nat_of_ascii c in (48 <=? n) && (n <=? 55).

Definition is_ascii_letter (c : ascii) : bool :=
  let n := nat_of_ascii c in ((65 <=? n) && (n <=? 90)) || ((97 <=? n) && (n <=? 122)).

Definition digit_value (c : ascii) : nat := nat_of_ascii c - 48.

(** [ESCAPES] of the parser: [\a \b \f \n \r \t \v \\]. *)
Definition escape (c : ascii) : option ascii :=
  match nat_of_ascii c with
  | 97 => Some (ascii_of_nat 7)
  | 98 => Some (ascii_of_nat 8)
  | 102 => Some (ascii_of_nat 12)
  | 110 => Some (ascii_of_nat 10)
  | 114 => Some (ascii_of_nat 13)
  | 116 => Some (ascii_of_nat 9)
  | 118 => Some (ascii_of_nat 11)
  | 92 => Some bs
  | _ => None
  end.

(** The positions of [parse_template], one character at a time: after a
    backslash; after [\g]; inside [\g<...>] (whether the name read so far is
    a non-empty run of [0]); after [\0] and [k] more octal digits of value
    [v]; after [\d] for a digit [d] from 1 to 9; after [\d1 d2], two octal
    digits of value [v]. *)
Inductive tstate :=
| TNormal
| TEsc
| TG
| TName (zeros : bool)
| TZero (k v : nat)
| TDigit (d : nat)
| TDigit2 (v : nat).

(** A character read outside an escape. *)
Definition tnormal (c : ascii) : tstate * list tpiece :=
  if Ascii.eqb c bs then (TEsc, []) else (TNormal, [TChar c]).

(** One character of the template; [None] is the [re.error] (or, for a
    named group, the [IndexError]) the parser raises.  A group reference
    other than [\g<0>] names a group the pattern does not have; [\g<name>]
    counts as [\g<0>] when [name] is ASCII digits that are all [0]. *)
Definition tstep (st : tstate) (c : ascii) : option (tstate * list tpiece) :=
  match st with
  | TNormal => Some (tnormal c)
  | TEsc =>
      if Ascii.eqb c "g"%char then Some (TG, [])
      else if Ascii.eqb c "0"%char then Some (TZero 0 0, [])
      else if is_digit c then Some (TDigit (digit_value c), [])
      else match escape c with
           | Some e => Some (TNormal, [TChar e])
           | None => if is_ascii_letter c then None else Some (TNormal, [TChar bs; TChar c])
           end
  | TG => if Ascii.eqb c "<"%char then Some (TName false, []) else None
  | TName zeros =>
      if Ascii.eqb c ">"%char then (if zeros then Some (TNormal, [TWhole]) else None)
      else if Ascii.eqb c "0"%char then Some (TName true, [])
      else None
  | TZero k v =>
      if is_octal c && (k <? 2) then Some (TZero (S k) (v * 8 + digit_value c), [])
      else let (st', out) := tnormal c in Some (st', TChar (ascii_of_nat v) :: out)
  | TDigit d =>
      if is_digit c && (d <=? 7) && is_octal c then Some (TDigit2 (d * 8 + digit_value c), [])
      else None
  | TDigit2 v =>
      if is_octal c && (v * 8 + digit_value c <=? 255)
      then Some (TNormal, [TChar (ascii_of_nat (v * 8 + digit_value c))])
      else None
  end.

(** The end of the template. *)
Definition tfinish (st : tstate) : option (list tpiece) :=
  match st with
  | TNormal => Some []
  | TZero _ v => Some [TChar (ascii_of_nat v)]
  | _ => None
  end.

Fixpoint parse_go (st : tstate) (s : text) : option (list tpiece) :=
  match s with
  | [] => tfinish st
  | c :: s' =>
      match tstep st c with
      | None => None
      | Some (st', out) =>
          match parse_go st' s' with
          | Some t => Some (out ++ t)
          | None => None
          end
      end
  end.

(** [sre_parse.parse_template], as Python 3.12 and later read a template
    (3.11 also accepted signs, blanks and underscores in a numeric
    [\g<...>]). *)
Definition parse_template (s : text) : option (list tpiece) := parse_go TNormal s.

(** [expand_template] at a match [m]. *)
Definition expand (t : list tpiece) (m : text) : text :=
  flat_map (fun p => match p with TChar c => [c] | TWhole => m end) t.

(** [sub_go] with a parsed template. *)
Fixpoint sub_go_t (m : matcher) (t : list tpiece) (skip : nat) (bol : bool) (s : text)
  : text :=
  match s with
  | [] => []
  | c :: s' =>
      match skip with
      | S k => sub_go_t m t k (Ascii.eqb c nl) s'
      | O =>
          match m bol s with
          | Some (S k) => expand t (firstn (S k) s) ++ sub_go_t m t k (Ascii.eqb c nl) s'
          | _ => c :: sub_go_t m t 0 (Ascii.eqb c nl) s'
          end
      end
  end.

(** [re.sub(pattern, repl, s)] with a template built from the inputs:
    CPython uses a template without a backslash as it is, and parses any
    other before it scans, so a bad template raises ([None]) even where
    nothing matches. *)
Definition re_sub_tpl (m : matcher) (repl s : text) : option text :=
  if existsb (Ascii.eqb bs) repl then
    match parse_template repl with
    | Some t => Some (sub_go_t m t 0 true s)
    | None => None
    end
  else Some (re_sub m repl s).

(** Index of the last double quote before the first newline. *)
Fixpoint last_quote_go (i : nat) (acc : option nat) (s : text) : option nat :=
  match s with
  | [] => acc
  | c :: s' =>
      if Ascii.eqb c nl then acc
      else last_quote_go (S i) (if Ascii.eqb c dq then Some i else acc) s'
  end.

Definition last_quote (s : text) : option nat := last_quote_go 0 None s.

(** [NAME = <dq>.*<dq>], where [p] is [NAME = <dq>] and [<dq>] is a double
    quote: the greedy [.*] backtracks to the last double quote of the
    line. *)
Definition m_assign (p : text) : matcher :=
  fun _ s =>
    if prefixb p s then
      match last_quote (skipn (length p) s) with
      | Some i => Some (length p + i + 1)
      | None => None
      end
    else None.

(** [^NAME = <dq>.*<dq>\n?] under [re.MULTILINE]. *)
Definition m_assign_line (p : text) : matcher :=
  fun bol s =>
    if bol then
      match m_assign p bol s with
      | Some n =>
          match skipn n s with
          | c :: _ => if Ascii.eqb c nl then Some (S n) else Some n
          | [] => Some n
          end
      | None => None
      end
    else None.

(** [\n{3,}] *)
Definition m_blank_run : matcher :=
  fun _ s =>
    let n := length (take_while (fun c => Ascii.eqb c nl) s) in
    if 3 <=? n then Some n else None.

(** A GitHub name interpolated into a pattern: [.] is any character but a
    newline, every other character stands for itself. *)
Fixpoint match_name (p s : text) : option text :=
  match p, s with
  | [], _ => Some s
  | c :: p', d :: s' =>
      if (if Ascii.eqb c "."%char then negb (Ascii.eqb d nl) else Ascii.eqb c d)
      then match_name p' s' else None
  | _ :: _, [] => None
  end.

Definition match_lit (p s : text) : option text :=
  if prefixb p s then Some (skipn (length p) s) else None.

Definition is_colon_eq (c : ascii) : bool :=
  Ascii.eqb c ":"%char || Ascii.eqb c "="%char.

(** [SRC_URI\s*[:=]+\s*<dq>git://github\.com/{org}/{repo}\.git[^<dq>]*<dq>]:
    the classes next to each other are disjoint, so greedy matching needs
    no backtracking. *)
Definition m_src_uri (org repo : text) : matcher :=
  fun _ s =>
    match match_lit (L "SRC_URI") s with
    | None => None
    | Some s1 =>
        let s2 := skip_while is_space s1 in
        let s3 := skip_while is_colon_eq s2 in
        if length s3 =? length s2 then None else
        let s4 := skip_while is_space s3 in
        match match_lit (dq :: L "git://github.com/") s4 with
        | None => None
        | Some s5 =>
            match match_name (org ++ L "/" ++ repo) s5 with
            | None => None
            | Some s6 =>
                match match_lit (L ".git") s6 with
                | None => None
                | Some s7 =>
                    match skip_while (fun c => negb (Ascii.eqb c dq)) s7 with
                    | _ :: s8 => Some (length s - length s8)
                    | [] => None
                    end
                end
            end
        end
    end.

(** ** Branch resolution (find_tag_branch and its helpers) *)

(** The GitHub API of the updater's organisation, as the resolver sees it. *)
Record Remote := {
  (** [_get_tag_sha]: [object.sha] of [git/refs/tags/{tag}]; [None] when the
      request raises or the field is missing. *)
  api_tag_ref : text -> text -> option text;
  (** [object.sha] of [git/tags/{sha}]; [None] when the request raises or
      the field is missing (the source then keeps the tag's own sha). *)
  api_tag_object : text -> text -> option text;
  (** the [branches] listing: [None] when the request raises, an entry
      [None] when it has no [name]. *)
  api_branches : text -> option (list (option text));
  (** [status] of [compare/{branch}...{sha}]: [None] when the request
      raises. *)
  api_compare : text -> text -> text -> option text;
  (** whether [branches/{branch}] answers without raising *)
  api_branch_exists : text -> text -> bool
}.

Section Resolver.

Variable R : Remote.

Definition _get_tag_sha (repo tag : text) : option text := api_tag_ref R repo tag.

Definition _get_commit_sha (repo tag_sha : text) : text :=
  match api_tag_object R repo tag_sha with
  | Some sha => sha
  | None => tag_sha
  end.

Definition _branch_contains_commit (repo branch commit_sha : text) : bool :=
  match api_compare R repo branch commit_sha with
  | Some status =>
      existsb (fun s => if list_eq_dec ascii_dec status s then true else false)
        [L "identical"; L "behind"]
  | None => false
  end.

(** [[b['name'] for b in branches_data]]: a missing [name] raises. *)
Fixpoint all_names (l : list (option text)) : option (list text) :=
  match l with
  | [] => Some []
  | Some n :: l' =>
      match all_names l' with Some ns => Some (n :: ns) | None => None end
  | None :: _ => None
  end.

Definition _find_branch_containing_commit (repo commit_sha : text) : option text :=
  match api_branches R repo with
  | None => None
  | Some entries =>
      match all_names entries with
      | None => None
      | Some names =>
          let release_branches :=
            filter (fun b => startswith b (L "releases/")) names in
          find (fun b => _branch_contains_commit repo b commit_sha)
            release_branches
      end
  end.

Definition _branch_exists (repo branch : text) : bool := api_branch_exists R repo branch.

Definition branch_patterns (tag : text) : list text :=
  let version := lstrip "v"%char tag in
  let major_minor := join "."%char (firstn 2 (split_on "."%char version)) in
  [ L "releases/" ++ major_minor ++ L ".0-main";
    L "releases/" ++ version ++ L "-main";
    L "releases/" ++ major_minor ++ L "-main";
    L "release-" ++ major_minor;
    L "release-" ++ version ].

Definition _find_branch_by_pattern (repo tag : text) : option text :=
  find (fun p => _branch_exists repo p) (branch_patterns tag).

Definition find_tag_branch (repo tag : text) : option text :=
  let tier1 :=
    let tag_sha := _get_tag_sha repo tag in
    if truthy tag_sha then
      let commit_sha := _get_commit_sha repo (match tag_sha with Some t => t | None => [] end) in
      if truthy (Some commit_sha) then
        let branch := _find_branch_containing_commit repo commit_sha in
        if truthy branch then branch else None
      else None
    else None in
  match tier1 with
  | Some b => Some b
  | None =>
      let branch := _find_branch_by_pattern repo tag in
      if truthy branch then branch else None
  end.

End Resolver.

(** [re.search(rf"^#SRC_URI.*github\.com/{org}/{repo}.*?branch=([^;]+)", line)]:
    the greedy [.*] tries the rightmost occurrence of the repository first,
    the lazy [.*?] the leftmost [branch=] after it that is followed by a
    character other than [;]; the group is the run of non-[;] characters. *)
Definition search_branch_in_line (org repo line : text) : option text :=
  match match_lit (L "#SRC_URI") line with
  | None => None
  | Some rest =>
      let after_repo (k : nat) :=
        match match_lit (L "github.com/") (skipn k rest) with
        | Some t => match_name (org ++ L "/" ++ repo) t
        | None => None
        end in
      let branch_at (t : text) (j : nat) :=
        match match_lit (L "branch=") (skipn j t) with
        | Some (c :: g) =>
            if Ascii.eqb c ";"%char then None
            else Some (c :: take_while (fun d => negb (Ascii.eqb d ";"%char)) g)
        | _ => None
        end in
      let first_some {A} (f : nat -> option A) (l : list nat) :=
        fold_right (fun i acc => match f i with Some x => Some x | None => acc end) None l in
      first_some
        (fun k =>
           match after_repo k with
           | None => None
           | Some t => first_some (branch_at t) (seq 0 (S (length t)))
           end)
        (rev (seq 0 (S (length rest))))
  end.

Fixpoint first_line_match (f : text -> option text) (ls : list text) : option text :=
  match ls with
  | [] => None
  | l :: ls' => match f l with Some b => Some b | None => first_line_match f ls' end
  end.

(** [get_current_branch_from_bb], on the content of an existing file. *)
Definition get_current_branch_from_bb (content org repo : text) : option text :=
  first_line_match (search_branch_in_line org repo) (split_on nl content).

(** Lines 215-230 of [update_bb_file]: the resolved branch, the recipe's
    recorded branch, or [releases/{major}.{minor}.0-main]. *)
Definition resolve_branch (R : Remote) (content org repo tag : text) : text :=
  match find_tag_branch R repo tag with
  | Some (c :: b) => c :: b
  | _ =>
      match get_current_branch_from_bb content org repo with
      | Some (c :: b) => c :: b
      | _ =>
          let version := lstrip "v"%char tag in
          let branch_version := join "."%char (firstn 2 (split_on "."%char version)) in
          L "releases/" ++ branch_version ++ L ".0-main"
      end
  end.

(** ** The recipe rewrite (update_bb_file) *)

Definition quoted (s : text) : text := dq :: s ++ [dq].

(** [f'GIT_TAG = "{tag}"'] *)
Definition git_tag_line (tag : text) : text := L "GIT_TAG = " ++ quoted tag.

Definition release_comment : text :=
  L "# Please use below part only for official release and release candidates".

Definition pv_line : text := L "PV = " ++ quoted (L "${GIT_TAG}+git${SRCPV}").

Definition srcrev_autorev : text := L "SRCREV = " ++ quoted (L "${AUTOREV}").

(** the [new_src_uri] of tag mode *)
Definition tag_src_uri (org repo branch comp : text) : text :=
  L "SRC_URI := " ++
  quoted (L "git://github.com/" ++ org ++ L "/" ++ repo ++ L ".git;branch=" ++
          branch ++ L ";protocol=https;name=" ++ comp ++ L ";tag=${GIT_TAG}").

(** the [new_src_uri] of branch mode *)
Definition branch_src_uri (org repo branch comp : text) : text :=
  L "SRC_URI = " ++
  quoted (L "git://github.com/" ++ org ++ L "/" ++ repo ++ L ".git;branch=" ++
          branch ++ L ";protocol=https;name=" ++ comp ++ L ";").

(** The [for i, line in enumerate(lines)] loop that places [GIT_TAG]; the
    sentinel [-1] is kept. *)
Fixpoint insert_index_go (i : nat) (insert_idx : Z) (lines : list text) : Z :=
  match lines with
  | [] => insert_idx
  | line :: ls =>
      if contains (L "LIC_FILES_CHKSUM") line then Z.of_nat i + 1
      else if contains (L "DEPENDS") line && (insert_idx =? -1)%Z
      then insert_index_go (S i) (Z.of_nat i + 1) ls
      else insert_index_go (S i) insert_idx ls
  end.

Definition insert_index (lines : list text) : Z := insert_index_go 0 (-1) lines.

(** Lines 232-288: tag mode, once the branch is resolved; [None] is the
    exception [re.sub] raises on a template built from the tag, the
    branch or the names. *)
Definition update_tag_content (org repo comp tag branch content : text) : option text :=
  let content1 :=
    if negb (contains (L "GIT_TAG = ") content) then
      let lines := split_on nl content in
      let insert_idx := insert_index lines in
      if (0 <? insert_idx)%Z then
        let n := Z.to_nat insert_idx in
        let lines := py_insert lines n [] in
        let lines := py_insert lines (n + 1) release_comment in
        let lines := py_insert lines (n + 2) (git_tag_line tag) in
        Some (join nl lines)
      else Some content
    else re_sub_tpl (m_assign (L "GIT_TAG = " ++ [dq])) (git_tag_line tag) content in
  match content1 with
  | None => None
  | Some content1 =>
      let new_src_uri := tag_src_uri org repo branch comp in
      match re_sub_tpl (m_src_uri org repo) new_src_uri content1 with
      | None => None
      | Some content2 =>
          let content3 :=
            if negb (contains (L "PV = ") content2)
            then py_replace new_src_uri (new_src_uri ++ nl :: pv_line) content2
            else re_sub (m_assign (L "PV = " ++ [dq])) pv_line content2 in
          Some (re_sub (m_lit_bol (L "SRCREV = ")) (L "#SRCREV = ") content3)
      end
  end.

(** Lines 292-332: branch mode. *)
Definition update_branch_content (org repo comp branch content : text) : option text :=
  let content1 := re_sub (m_assign_line (L "GIT_TAG = " ++ [dq])) [] content in
  let new_src_uri := branch_src_uri org repo branch comp in
  match re_sub_tpl (m_src_uri org repo) new_src_uri content1 with
  | None => None
  | Some content2 =>
      let content3 := re_sub (m_lit pv_line) srcrev_autorev content2 in
      let content4 := re_sub (m_lit_bol (L "#SRCREV = ")) (L "SRCREV = ") content3 in
      Some (if negb (contains (L "SRCREV = ") content4)
            then py_replace new_src_uri (new_src_uri ++ nl :: srcrev_autorev) content4
            else content4)
  end.

(** Line 335: [re.sub(r'\n{3,}', '\n\n', content)]. *)
Definition cleanup (content : text) : text := re_sub m_blank_run [nl; nl] content.

(** [tag_or_branch.startswith('v') and re.match(r'^v\d+\.\d+\.\d+', ...)] *)
Definition digits_then (s : text) : option text :=
  match s with
  | c :: _ => if is_digit c then Some (skip_while is_digit s) else None
  | [] => None
  end.

Definition is_version_tag (s : text) : bool :=
  startswith s (L "v") &&
  match match_lit (L "v") s with
  | None => false
  | Some s1 =>
      match digits_then s1 with
      | Some ("."%char :: s2) =>
          match digits_then s2 with
          | Some ("."%char :: s3) =>
              match digits_then s3 with Some _ => true | None => false end
          | _ => false
          end
      | _ => false
      end
  end.

Definition is_release_branch (s : text) : bool :=
  startswith s (L "releases/") && endswith s (L "-main").

(** The recipe path as [update_bb_file] meets it: what [exists()] answers,
    what [read_text()] answers ([None]: it raises), and whether
    [write_text()] completes.  [get_current_branch_from_bb] reads the same
    file again and gets the same content. *)
Record bb_path := { bb_exists : bool; bb_read : option text; bb_write_ok : bool }.

(** The outcome of a call: whether it raises, the value it returns when it
    does not, and the content it hands to [write_text], if any (when that
    write raises, the file may be left truncated or partly written). *)
Record outcome := { raised : bool; returned : bool; written : option text }.

(** Lines 207-332: the content rewrite of a valid specifier. *)
Definition rewrite_content (R : Remote) (org tag_or_branch repo content component_name : text)
  : option text :=
  if is_version_tag tag_or_branch then
    update_tag_content org repo component_name tag_or_branch
      (resolve_branch R content org repo tag_or_branch) content
  else update_branch_content org repo component_name tag_or_branch content.

(** Lines 334-341: the cleanup, [write_text] and [return True], after a
    rewrite that did not raise. *)
Definition finish_write (bb_file : bb_path) (rewritten : option text) : outcome :=
  match rewritten with
  | None => {| raised := true; returned := false; written := None |}
  | Some content =>
      let content := cleanup content in
      if bb_write_ok bb_file then {| raised := false; returned := true; written := Some content |}
      else {| raised := true; returned := false; written := Some content |}
  end.

(** [update_bb_file] (lines 179-341); printing is not modelled. *)
Definition update_bb_file (R : Remote) (org tag_or_branch repo : text)
    (bb_file : bb_path) (component_name : text) : outcome :=
  if negb (bb_exists bb_file) then {| raised := false; returned := false; written := None |}
  else
    let is_tag := is_version_tag tag_or_branch in
    let is_branch := is_release_branch tag_or_branch in
    if negb is_tag && negb is_branch then {| raised := false; returned := false; written := None |}
    else
      match bb_read bb_file with
      | None => {| raised := true; returned := false; written := None |}
      | Some content =>
          finish_write bb_file (rewrite_content R org tag_or_branch repo content component_name)
      end.

(** ** Reading aids for the statements *)

(** [vX.Y.Z] from its three numbers. *)
Definition digit_string (x : text) : bool :=
  match x with [] => false | _ => forallb is_digit x end.

Definition tag_of (x y z : text) : text :=
  L "v" ++ x ++ "."%char :: y ++ "."%char :: z.

(** The lines of a text ([split('\n')]) without the empty ones. *)
Definition words (s : text) : list text :=
  filter (fun l => match l with [] => false | _ => true end) (split_on nl s).

(** A text made of newline-terminated lines. *)
Definition unlines (ls : list text) : text := concat (map (fun l => l ++ [nl]) ls).

(** The lines of [w] that start with [p]. *)
Definition lines_starting (p w : text) : list text :=
  filter (fun l => startswith l p) (split_on nl w).

(** Blank-line collapsing read off the words "every maximal run of three
    or more newline characters becomes two newline characters": [k] counts
    the newlines of the current run. *)
Definition collapse_emit (k : nat) : text := if 3 <=? k then [nl; nl] else repeat nl k.

Fixpoint collapse_runs_go (k : nat) (s : text) : text :=
  match s with
  | [] => collapse_emit k
  | c :: s' =>
      if Ascii.eqb c nl then collapse_runs_go (S k) s'
      else collapse_emit k ++ c :: collapse_runs_go 0 s'
  end.

Definition collapse_runs (s : text) : text := collapse_runs_go 0 s.

(** A remote where every request fails. *)
Definition offline : Remote := {|
  api_tag_ref := fun _ _ => None;
  api_tag_object := fun _ _ => None;
  api_branches := fun _ => None;
  api_compare := fun _ _ _ => None;
  api_branch_exists := fun _ _ => false |}.

Definition rdkcentral : text := L "rdkcentral".
Definition wan_manager : text := L "wan-manager".
Definition WanManager : text := L "WanManager".

(** A recipe in branch mode, as branch mode writes it. *)
Definition branch_recipe : text :=
  unlines [L "LIC_FILES_CHKSUM = " ++ quoted (L "file://LICENSE;md5=abc");
           branch_src_uri rdkcentral wan_manager (L "releases/1.0.0-main") WanManager;
           srcrev_autorev].

(** A recipe whose source line carries a quoted remark after its value. *)
Definition remark_recipe : text :=
  unlines [L "LIC_FILES_CHKSUM = " ++ quoted (L "file://LICENSE;md5=abc");
           L "SRC_URI = " ++
             quoted (L "git://github.com/rdkcentral/wan-manager.git;branch=main") ++
             L " # was " ++ quoted (L "main")].

(** A recipe with neither a [LIC_FILES_CHKSUM] nor a [DEPENDS] line. *)
Definition bare_recipe : text :=
  unlines [L "SRC_URI = " ++
             quoted (L "git://github.com/rdkcentral/wan-manager.git;branch=main")].

(** An existing recipe that reads [c] and can be written. *)
Definition recipe_at (c : text) : bb_path :=
  {| bb_exists := true; bb_read := Some c; bb_write_ok := true |}.

(** A GitHub organisation or repository name: letters, digits, [-], [_]
    and [.]. *)
Definition github_name (s : text) : bool :=
  forallb (fun c => is_ascii_letter c || is_digit c || Ascii.eqb c "-"%char ||
                    Ascii.eqb c "_"%char || Ascii.eqb c "."%char) s.

(** The text written back, or the empty text when nothing is written. *)
Definition written_text (o : outcome) : text :=
  match written o with Some t => t | None => [] end.

(** A remote where the tag [v2.11.0] resolves and [releases/2.11.0-main]
    holds its commit. *)
Definition text_eqb (a b : text) : bool :=
  if list_eq_dec ascii_dec a b then true else false.

Definition listing_remote : Remote := {|
  api_tag_ref := fun _ _ => Some (L "abc123");
  api_tag_object := fun _ _ => None;
  api_branches := fun _ =>
    Some (map Some [L "main"; L "releases/2.10.0-main"; L "releases/2.11.0-main";
                    L "releases/2.12.0-main"]);
  api_compare := fun _ b _ =>
    if text_eqb b (L "releases/2.10.0-main") then Some (L "ahead")
    else Some (L "behind");
  api_branch_exists := fun _ _ => false |}.

(** A remote whose tag lookups fail and where only [releases/2.11-main]
    exists. *)
Definition pattern_remote : Remote := {|
  api_tag_ref := fun _ _ => None;
  api_tag_object := fun _ _ => None;
  api_branches := fun _ => None;
  api_compare := fun _ _ _ => None;
  api_branch_exists := fun _ b => text_eqb b (L "releases/2.11-main") |}.

(** A recipe holding two consecutive blank lines. *)
Definition blank_recipe : text := unlines [L "A"; []; []; L "B"].

(** Whether the scan is at a line start after reading [x]. *)
Fixpoint bol_after (b : bool) (x : text) : bool :=
  match x with
  | [] => b
  | c :: x' => bol_after (Ascii.eqb c nl) x'
  end.

(** [rest] does not continue a newline run. *)
Definition run_end (rest : text) : Prop :=
  match rest with [] => True | c :: _ => Ascii.eqb c nl = false end.

(** Documents in tag mode, line by line, in the shapes tag mode writes:
    [GIT_TAG = <dq>tag<dq>], [SRC_URI := <dq>git://github.com/org/repo.git...<dq>],
    the [PV] line of tag mode, disabled [#SRCREV = ...] lines, and lines that
    name none of the four fields. *)
Inductive tline :=
| Other (t : text)
| GitTagLine (tag : text)
| TagSrcLine (u : text)
| PvLine
| SrcrevOffLine (r : text).

Definition tline_text (org repo : text) (l : tline) : text :=
  match l with
  | Other t => t
  | GitTagLine tag => git_tag_line tag
  | TagSrcLine u =>
      L "SRC_URI := " ++ quoted (L "git://github.com/" ++ org ++ L "/" ++ repo ++ L ".git" ++ u)
  | PvLine => pv_line
  | SrcrevOffLine r => L "#SRCREV = " ++ r
  end.

Definition tag_mode_doc (org repo : text) (ls : list tline) : text :=
  unlines (map (tline_text org repo) ls).

(** A line after the first [n] substitutions of branch mode. *)
Definition branch_stage (org repo comp branch : text) (n : nat) (l : tline) : text :=
  match l with
  | TagSrcLine _ => if 2 <=? n then branch_src_uri org repo branch comp else tline_text org repo l
  | PvLine => if 3 <=? n then srcrev_autorev else pv_line
  | SrcrevOffLine r => if 4 <=? n then L "SRCREV = " ++ r else tline_text org repo l
  | _ => tline_text org repo l
  end.

Definition is_git_tag_line (l : tline) : bool :=
  match l with GitTagLine _ => true | _ => false end.

Definition is_tag_src_line (l : tline) : bool :=
  match l with TagSrcLine _ => true | _ => false end.

Definition is_pv_line (l : tline) : bool :=
  match l with PvLine => true | _ => false end.

(** [c] does not occur in [t]. *)
Definition free (c : ascii) (t : text) : bool := forallb (fun d => negb (Ascii.eqb d c)) t.

Definition tline_ok (l : tline) : bool :=
  match l with
  | Other t =>
      free nl t && negb (contains (L "GIT_TAG") t) && negb (contains (L "SRC_URI") t) &&
      negb (contains (L "PV = ") t) && negb (contains (L "SRCREV") t)
  | GitTagLine tag => free nl tag
  | TagSrcLine u => free nl u && free dq u
  | PvLine => true
  | SrcrevOffLine r => free nl r && free "_"%char r
  end.

(** The organisation and repository are GitHub names; the component name
    and the branch hold no backslash; the names are single-line and hold no
    [$]; the document has a source line and the [PV] line of tag mode; the
    branch is a release branch. *)
Definition tag_mode_ok (org repo comp branch : text) (ls : list tline) : bool :=
  (github_name org && github_name repo && free bs comp && free bs branch) &&
  forallb (fun t => free nl t && free "$"%char t) [org; repo; comp; branch] &&
  is_release_branch branch && existsb is_tag_src_line ls && existsb is_pv_line ls &&
  forallb tline_ok ls.

(** A recipe as tag mode writes it. *)
Definition tag_recipe_lines : list tline :=
  [Other (L "LICENSE = " ++ quoted (L "Apache-2.0"));
   Other (L "LIC_FILES_CHKSUM = " ++ quoted (L "file://LICENSE;md5=abc"));
   Other [];
   Other release_comment;
   GitTagLine (L "v1.3.0");
   Other [];
   TagSrcLine (L ";branch=releases/1.3.0-main;protocol=https;name=WanManager;tag=${GIT_TAG}");
   PvLine;
   SrcrevOffLine (quoted (L "${AUTOREV}"))].

(** ** [main] of update_component.py *)

(** The parsed command line; [arg_bb_file] is the recipe path. *)
Record main_args := {
  arg_tag_or_branch : text;
  arg_repo : text;
  arg_bb_file : bb_path;
  arg_component_name : text;
  arg_org : text;
  arg_dry_run : bool }.

(** The exit status (an uncaught exception exits with 1), the content
    handed to [write_text], and the branch the dry run of a tag reports. *)
Record main_outcome := {
  exit_code : Z;
  main_written : option text;
  reported_branch : option text }.

(** [get_current_branch_from_bb(bb_file, repo)] on the path: [None] when
    [read_text] raises, [Some None] when the file does not exist. *)
Definition current_branch_at (bb_file : bb_path) (org repo : text) : option (option text) :=
  if bb_exists bb_file then
    match bb_read bb_file with
    | Some content => Some (get_current_branch_from_bb content org repo)
    | None => None
    end
  else Some None.

(** Lines 386-388: [find_tag_branch(...)], else
    [get_current_branch_from_bb(...) or <dq>fallback-pattern<dq>]; [None]
    when reading the recipe raises. *)
Definition dry_run_branch (R : Remote) (org : text) (bb_file : bb_path) (repo tag : text)
  : option text :=
  match find_tag_branch R repo tag with
  | Some (c :: b) => Some (c :: b)
  | _ =>
      match current_branch_at bb_file org repo with
      | None => None
      | Some (Some (c :: b)) => Some (c :: b)
      | Some _ => Some (L "fallback-pattern")
      end
  end.

(** Lines 368-396; [R] is the API of [--org]. *)
Definition main (R : Remote) (args : main_args) : main_outcome :=
  let spec := arg_tag_or_branch args in
  let is_tag := is_version_tag spec in
  let is_branch := is_release_branch spec in
  if negb is_tag && negb is_branch then
    {| exit_code := 1; main_written := None; reported_branch := None |}
  else if arg_dry_run args then
    if is_tag then
      match dry_run_branch R (arg_org args) (arg_bb_file args) (arg_repo args) spec with
      | Some b => {| exit_code := 0; main_written := None; reported_branch := Some b |}
      | None => {| exit_code := 1; main_written := None; reported_branch := None |}
      end
    else {| exit_code := 0; main_written := None; reported_branch := None |}
  else
    let o := update_bb_file R (arg_org args) spec (arg_repo args) (arg_bb_file args)
               (arg_component_name args) in
    {| exit_code := if raised o then 1 else if returned o then 0 else 1;
       main_written := written o; reported_branch := None |}.

(** Spec-side reading of the [GIT_TAG] placement: the index of the first
    line satisfying [f]. *)
Fixpoint find_index (f : text -> bool) (ls : list text) : option nat :=
  match ls with
  | [] => None
  | l :: ls' => if f l then Some 0 else option_map S (find_index f ls')
  end.

(** * test_component_updates.py: the test harness *)

Module TestComponentUpdates.

(** An entry of [COMPONENTS]. *)
Record component := { c_bb_file : text; c_name : text; c_display : text }.

Definition COMPONENTS : list (text * component) :=
  [(L "ppp-manager",
    {| c_bb_file := L "recipes-ccsp/ccsp/rdk-ppp-manager.bb"; c_name := L "PPPManager";
       c_display := L "PPP Manager" |});
   (L "vlan-manager",
    {| c_bb_file := L "recipes-ccsp/ccsp/rdk-vlanmanager.bb"; c_name := L "VLANManager";
       c_display := L "VLAN Manager" |});
   (L "wan-manager",
    {| c_bb_file := L "recipes-ccsp/ccsp/rdk-wanmanager.bb"; c_name := L "WanManager";
       c_display := L "WAN Manager" |});
   (L "gpon-manager",
    {| c_bb_file := L "recipes-ccsp/ccsp/rdkgponmanager.bb"; c_name := L "GPONManager";
       c_display := L "GPON Manager" |});
   (L "xdsl-manager",
    {| c_bb_file := L "recipes-ccsp/ccsp/rdkxdslmanager.bb"; c_name := L "xDSLManager";
       c_display := L "xDSL Manager" |});
   (L "ipoe-health-check",
    {| c_bb_file := L "recipes-support/ipoe-health-check/ipoe-health-check.bb";
       c_name := L "IPoEHealthCheck"; c_display := L "IPoE Health Check" |})].

(** [COMPONENTS[repo]] / [repo in COMPONENTS] *)
Fixpoint lookup (repo : text) (l : list (text * component)) : option component :=
  match l with
  | [] => None
  | (k, v) :: l' => if text_eqb k repo then Some v else lookup repo l'
  end.

(** A [ComponentTester]: its two counters and the file system it reads and
    writes (a path maps to the file's content, [None] when it does not
    exist). Its [updater] is [ComponentUpdater()], of the organisation
    [rdkcentral], whose API is the [Remote] passed to each method. *)
Record tester := { errors : nat; warnings : nat; fs : text -> option text }.

(** What a call of the harness does: it returns, or raises an exception
    that leaves the file system as given. *)
Inductive run (A : Type) := Ret (a : A) | Raise (fs : text -> option text).
Arguments Ret {A} a.
Arguments Raise {A} fs.

(** [print_status]: the message is only printed; the counters move. *)
Definition print_status (status : text) (self : tester) : tester :=
  if text_eqb status (L "error") then
    {| errors := S (errors self); warnings := warnings self; fs := fs self |}
  else if text_eqb status (L "warning") then
    {| errors := errors self; warnings := S (warnings self); fs := fs self |}
  else self.

Definition write_text (self : tester) (path content : text) : tester :=
  {| errors := errors self; warnings := warnings self;
     fs := fun p => if text_eqb p path then Some content else fs self p |}.

Definition validate_input_format (input_value : text) (self : tester) : bool * tester :=
  let is_tag := is_version_tag input_value in
  let is_branch := is_release_branch input_value in
  if negb is_tag && negb is_branch then
    (false, print_status (L "info") (print_status (L "error") self))
  else if is_tag then (true, print_status (L "success") self)
  else (true, print_status (L "success") self).

(** [_get_current_tag]: a multiline [re.search] for a line start, the
    literal [#GIT_TAG = <dq>], a captured run of non-quote characters and a
    quote:
    the leftmost line start where the literal is followed by a run of
    non-quote characters (newlines included) and a quote; [<dq><dq>] when
    there is none. *)
Fixpoint current_tag_go (bol : bool) (s : text) : text :=
  match s with
  | [] => []
  | c :: s' =>
      let here :=
        if bol then
          match match_lit (L "#GIT_TAG = " ++ [dq]) s with
          | Some t =>
              match skip_while (fun d => negb (Ascii.eqb d dq)) t with
              | _ :: _ => Some (take_while (fun d => negb (Ascii.eqb d dq)) t)
              | [] => None
              end
          | None => None
          end
        else None in
      match here with
      | Some g => g
      | None => current_tag_go (Ascii.eqb c nl) s'
      end
  end.

Definition _get_current_tag (content : text) : text := current_tag_go true content.

(** [test_component_update]; the harness reads every file it finds, and
    writes every file it writes. *)
Definition test_component_update (R : Remote) (repo tag_or_branch : text) (dry_run : bool)
    (self : tester) : run (bool * tester) :=
  match lookup repo COMPONENTS with
  | None => Ret (false, print_status (L "error") self)
  | Some config =>
      let bb_file := c_bb_file config in
      let self := print_status (L "info") self in
      match fs self bb_file with
      | None => Ret (false, print_status (L "error") self)
      | Some content =>
          let current_tag := _get_current_tag content in
          let self :=
            match current_tag with
            | [] => print_status (L "info") self
            | _ :: _ =>
                let self := print_status (L "info") self in
                if text_eqb current_tag tag_or_branch then print_status (L "warning") self
                else self
            end in
          let self :=
            if startswith tag_or_branch (L "v") then
              let self :=
                match find_tag_branch R repo tag_or_branch with
                | Some (_ :: _) => self
                | _ =>
                    let self := print_status (L "warning") self in
                    match get_current_branch_from_bb content (L "rdkcentral") repo with
                    | Some (_ :: _) => print_status (L "info") self
                    | _ => print_status (L "info") self
                    end
                end in
              print_status (L "info") self
            else print_status (L "info") self in
          if negb dry_run then
            let o := update_bb_file R (L "rdkcentral") tag_or_branch repo (recipe_at content)
                       (c_name config) in
            let self := match written o with Some w => write_text self bb_file w | None => self end in
            if raised o then Raise (fs self) else Ret (returned o, self)
          else Ret (true, self)
      end
  end.

(** The validation loop of [run_tests]; it raises the [KeyError] of
    [COMPONENTS[repo]] for an unknown component. *)
Fixpoint validate_all (component_tags : list (text * text)) (self : tester) : run tester :=
  match component_tags with
  | [] => Ret self
  | (repo, tag_or_branch) :: rest =>
      match lookup repo COMPONENTS with
      | None => Raise (fs self)
      | Some _ => validate_all rest (snd (validate_input_format tag_or_branch self))
      end
  end.

Fixpoint test_all (R : Remote) (component_tags : list (text * text)) (dry_run : bool)
    (self : tester) : run tester :=
  match component_tags with
  | [] => Ret self
  | (repo, tag_or_branch) :: rest =>
      match test_component_update R repo tag_or_branch dry_run self with
      | Ret (_, self) => test_all R rest dry_run self
      | Raise fs' => Raise fs'
      end
  end.

Definition root_recipe : text := L "recipes-ccsp/ccsp/rdk-wanmanager.bb".

(** [run_tests]; [component_tags] is the dict's items in order. *)
Definition run_tests (R : Remote) (component_tags : list (text * text)) (dry_run : bool)
    (self : tester) : run (bool * tester) :=
  let self := print_status (L "info") self in
  match fs self root_recipe with
  | None => Ret (false, print_status (L "error") self)
  | Some _ =>
      match validate_all component_tags self with
      | Raise fs' => Raise fs'
      | Ret self =>
          if 0 <? errors self then Ret (false, print_status (L "error") self)
          else
            let self := print_status (L "info") (print_status (L "success") self) in
            match test_all R component_tags dry_run self with
            | Raise fs' => Raise fs'
            | Ret self =>
                let self :=
                  if errors self =? 0 then
                    let self := print_status (L "success") self in
                    if dry_run then print_status (L "info") self else self
                  else print_status (L "error") self in
                Ret (errors self =? 0, self)
            end
      end
  end.

(** The parsed command line: [component_arg repo] is the value of the
    option [--{repo}]. *)
Record targs := {
  list_components : bool;
  all_components : option text;
  component_arg : text -> option text;
  live_run : bool }.

(** [main]: the exit status and the file system afterwards. [parser.error]
    exits with status 2, an uncaught exception with status 1. *)
Definition main (R : Remote) (args : targs) (fs0 : text -> option text)
  : Z * (text -> option text) :=
  if list_components args then (0%Z, fs0)
  else
    let keys := map fst COMPONENTS in
    let component_tags :=
      match all_components args with
      | Some (c :: t) => map (fun repo => (repo, c :: t)) keys
      | _ =>
          flat_map (fun repo => match component_arg args repo with
                                | Some (c :: t) => [(repo, c :: t)]
                                | _ => []
                                end) keys
      end in
    match component_tags with
    | [] => (2%Z, fs0)
    | _ =>
        match run_tests R component_tags (negb (live_run args))
                {| errors := 0; warnings := 0; fs := fs0 |} with
        | Ret (success, self) => (if success then 0%Z else 1%Z, fs self)
        | Raise fs' => (1%Z, fs')
        end
    end.

End TestComponentUpdates.

(** Reading aids for the harness: a specifier [main] and the harness accept,
    and whether the recipe of a known component exists. *)
Definition valid_spec (t : text) : bool := is_version_tag t || is_release_branch t.

Definition recipe_present (fs : text -> option text) (repo : text) : bool :=
  match TestComponentUpdates.lookup repo TestComponentUpdates.COMPONENTS with
  | Some config =>
      match fs (TestComponentUpdates.c_bb_file config) with Some _ => true | None => false end
  | None => false
  end.

(** The file system after a live [test_component_update] of [config]:
    the recipe path holds what [update_bb_file] handed to [write_text]. *)
Definition tcu_after (self : TestComponentUpdates.tester)
    (config : TestComponentUpdates.component) (o : outcome) (p : text) : option text :=
  match written o with
  | Some w =>
      if text_eqb p (TestComponentUpdates.c_bb_file config) then Some w
      else TestComponentUpdates.fs self p
  | None => TestComponentUpdates.fs self p
  end.

(** * Proofs *)

(** ** Lemmas on the string primitives *)

Lemma ascii_eqb_refl' (c : ascii) : Ascii.eqb c c = true.
Proof. apply Ascii.eqb_refl. Qed.

Lemma prefixb_app (p s : text) : prefixb p (p ++ s) = true.
Proof.
  induction p as [|c p IH]; simpl; [reflexivity|].
  rewrite Ascii.eqb_refl, IH. reflexivity.
Qed.

Lemma prefixb_true_app (p s : text) :
  prefixb p s = true -> exists t, s = p ++ t.
Proof.
  revert s; induction p as [|c p IH]; intros s H; simpl in *.
  - exists s. reflexivity.
  - destruct s as [|d s]; [discriminate|].
    apply andb_prop in H as [Hc Hp].
    apply Ascii.eqb_eq in Hc; subst d.
    destruct (IH s Hp) as [t ->]. exists t. reflexivity.
Qed.

Lemma skipn_app_length {A} (p s : list A) : skipn (length p) (p ++ s) = s.
Proof. induction p; simpl; auto. Qed.

Lemma split_on_nonempty (c : ascii) (s : text) : split_on c s <> [].
Proof.
  destruct s as [|d s]; simpl; [discriminate|].
  destruct (Ascii.eqb d c); [discriminate|].
  destruct (split_on c s); discriminate.
Qed.

Lemma split_on_app_sep (c : ascii) (x y : text) :
  split_on c (x ++ c :: y) = split_on c x ++ split_on c y.
Proof.
  induction x as [|d x IH]; simpl.
  - rewrite Ascii.eqb_refl. reflexivity.
  - rewrite IH. destruct (Ascii.eqb d c); [reflexivity|].
    pose proof (split_on_nonempty c x) as Hn.
    destruct (split_on c x) as [|w ws]; [congruence|]. reflexivity.
Qed.

Lemma split_on_free (c : ascii) (x : text) :
  forallb (fun d => negb (Ascii.eqb d c)) x = true -> split_on c x = [x].
Proof.
  induction x as [|d x IH]; simpl; intros H; [reflexivity|].
  apply andb_prop in H as [Hd Hx].
  destruct (Ascii.eqb d c); [discriminate|].
  rewrite (IH Hx). reflexivity.
Qed.

Lemma digit_not_dot (x : text) :
  forallb is_digit x = true ->
  forallb (fun d => negb (Ascii.eqb d "."%char)) x = true.
Proof.
  induction x as [|d x IH]; simpl; intros H; [reflexivity|].
  apply andb_prop in H as [Hd Hx]. rewrite (IH Hx), andb_true_r.
  destruct (Ascii.eqb d "."%char) eqn:E; [|reflexivity].
  apply Ascii.eqb_eq in E; subst d. discriminate.
Qed.

Lemma skip_digits (x r : text) :
  forallb is_digit x = true -> skip_while is_digit (x ++ r) = skip_while is_digit r.
Proof.
  induction x as [|d x IH]; simpl; intros H; [reflexivity|].
  apply andb_prop in H as [Hd Hx]. rewrite Hd. apply IH, Hx.
Qed.

Lemma digits_then_dot (x r : text) :
  digit_string x = true -> digits_then (x ++ "."%char :: r) = Some ("."%char :: r).
Proof.
  destruct x as [|d x]; simpl; intros H; [discriminate|].
  apply andb_prop in H as [Hd Hx]. rewrite Hd.
  rewrite (skip_digits x _ Hx). reflexivity.
Qed.

Lemma digits_then_some (x r : text) :
  digit_string x = true -> exists t, digits_then (x ++ r) = Some t.
Proof.
  destruct x as [|d x]; simpl; intros H; [discriminate|].
  apply andb_prop in H as [Hd _]. rewrite Hd. eexists; reflexivity.
Qed.

(** The version, the major and minor numbers of [vX.Y.Z]. *)
Lemma lstrip_tag (x y z : text) :
  digit_string x = true ->
  lstrip "v"%char (tag_of x y z) = x ++ "."%char :: y ++ "."%char :: z.
Proof.
  unfold tag_of. change (L "v") with ["v"%char].
  destruct x as [|d x]; intros H; [discriminate|].
  cbn [app lstrip]. rewrite Ascii.eqb_refl. cbn [lstrip].
  simpl in H. apply andb_prop in H as [Hd _].
  destruct (Ascii.eqb "v" d) eqn:E; [|reflexivity].
  apply Ascii.eqb_eq in E; subst d. discriminate.
Qed.

Lemma split_tag (x y z : text) :
  digit_string x = true -> digit_string y = true -> digit_string z = true ->
  split_on "."%char (x ++ "."%char :: y ++ "."%char :: z) = [x; y; z].
Proof.
  intros Hx Hy Hz.
  assert (Fx : forallb (fun d => negb (Ascii.eqb d "."%char)) x = true)
    by (apply digit_not_dot; destruct x; [discriminate|exact Hx]).
  assert (Fy : forallb (fun d => negb (Ascii.eqb d "."%char)) y = true)
    by (apply digit_not_dot; destruct y; [discriminate|exact Hy]).
  assert (Fz : forallb (fun d => negb (Ascii.eqb d "."%char)) z = true)
    by (apply digit_not_dot; destruct z; [discriminate|exact Hz]).
  rewrite split_on_app_sep, split_on_app_sep.
  rewrite (split_on_free _ _ Fx), (split_on_free _ _ Fy), (split_on_free _ _ Fz).
  reflexivity.
Qed.

Lemma major_minor_tag (x y z : text) :
  digit_string x = true -> digit_string y = true -> digit_string z = true ->
  join "."%char (firstn 2 (split_on "."%char (lstrip "v"%char (tag_of x y z))))
  = x ++ "."%char :: y.
Proof.
  intros Hx Hy Hz. rewrite (lstrip_tag _ _ _ Hx), (split_tag _ _ _ Hx Hy Hz).
  reflexivity.
Qed.

Lemma is_version_tag_prefix (x y z rest : text) :
  digit_string x = true -> digit_string y = true -> digit_string z = true ->
  is_version_tag (tag_of x y z ++ rest) = true.
Proof.
  intros Hx Hy Hz. unfold is_version_tag, tag_of, startswith, match_lit.
  simpl. rewrite <- app_assoc. cbn [app].
  rewrite (digits_then_dot _ _ Hx).
  rewrite <- app_assoc. cbn [app]. rewrite (digits_then_dot _ _ Hy).
  destruct (digits_then_some z rest Hz) as [t ->]. reflexivity.
Qed.

Lemma is_release_branch_not_tag (b : text) :
  is_release_branch b = true -> is_version_tag b = false.
Proof.
  unfold is_release_branch, startswith. intros H.
  apply andb_prop in H as [H _].
  destruct (prefixb_true_app _ _ H) as [t ->]. reflexivity.
Qed.

(** ** Lemmas on the resolver *)

Lemma find_first {A} (f : A -> bool) (l : list A) (b : A) :
  find f l = Some b <->
  exists pre post, l = pre ++ b :: post /\ f b = true /\
    forall b', In b' pre -> f b' = false.
Proof.
  induction l as [|a l IH]; simpl.
  - split; [discriminate|]. intros (pre & post & E & _).
    destruct pre; discriminate.
  - destruct (f a) eqn:Fa.
    + split.
      * intros H; inversion H; subst. exists [], l.
        split; [reflexivity|split; [exact Fa|intros ? []]].
      * intros (pre & post & E & Fb & Hpre).
        destruct pre as [|a' pre]; simpl in E; inversion E; subst; [reflexivity|].
        rewrite (Hpre a' (or_introl eq_refl)) in Fa. discriminate.
    + rewrite IH. split.
      * intros (pre & post & E & Fb & Hpre). exists (a :: pre), post.
        rewrite E. repeat split; auto.
        intros b' [<-|Hb']; auto.
      * intros (pre & post & E & Fb & Hpre).
        destruct pre as [|a' pre]; simpl in E; inversion E; subst.
        -- rewrite Fb in Fa. discriminate.
        -- exists pre, post. repeat split; auto.
           intros b' Hb'. apply Hpre. right. exact Hb'.
Qed.

Lemma find_none {A} (f : A -> bool) (l : list A) :
  find f l = None <-> forall b, In b l -> f b = false.
Proof.
  induction l as [|a l IH]; simpl.
  - split; [intros _ b []|reflexivity].
  - destruct (f a) eqn:Fa.
    + split; [discriminate|]. intros H. rewrite (H a (or_introl eq_refl)) in Fa.
      discriminate.
    + rewrite IH. split.
      * intros H b [<-|Hb]; auto.
      * intros H b Hb. apply H. right. exact Hb.
Qed.

Lemma find_filter_first {A} (f g : A -> bool) (l : list A) (b : A) :
  find f (filter g l) = Some b <->
  exists pre post, l = pre ++ b :: post /\ g b = true /\ f b = true /\
    forall b', In b' pre -> g b' = true -> f b' = false.
Proof.
  induction l as [|a l IH]; simpl.
  - split; [discriminate|]. intros (pre & post & E & _).
    destruct pre; discriminate.
  - destruct (g a) eqn:Ga; [destruct (f a) eqn:Fa|]; simpl; try rewrite Fa.
    + split.
      * intros H; inversion H; subst. exists [], l.
        split; [reflexivity|split; [exact Ga|split; [exact Fa|intros ? []]]].
      * intros (pre & post & E & Gb & Fb & Hpre).
        destruct pre as [|a' pre]; simpl in E; inversion E; subst; [reflexivity|].
        rewrite (Hpre a' (or_introl eq_refl) Ga) in Fa. discriminate.
    + rewrite IH. split.
      * intros (pre & post & E & Gb & Fb & Hpre). exists (a :: pre), post.
        rewrite E. repeat split; auto.
        intros b' [<-|Hb'] Gb'; auto.
      * intros (pre & post & E & Gb & Fb & Hpre).
        destruct pre as [|a' pre]; simpl in E; inversion E; subst.
        -- rewrite Fb in Fa. discriminate.
        -- exists pre, post. repeat split; auto.
           intros b' Hb' Gb'. apply Hpre; [right|]; assumption.
    + rewrite IH. split.
      * intros (pre & post & E & Gb & Fb & Hpre). exists (a :: pre), post.
        rewrite E. repeat split; auto.
        intros b' [<-|Hb'] Gb'; [congruence|auto].
      * intros (pre & post & E & Gb & Fb & Hpre).
        destruct pre as [|a' pre]; simpl in E; inversion E; subst.
        -- congruence.
        -- exists pre, post. repeat split; auto.
           intros b' Hb' Gb'. apply Hpre; [right|]; assumption.
Qed.

Lemma all_names_some (names : list text) : all_names (map Some names) = Some names.
Proof. induction names as [|n ns IH]; simpl; [|rewrite IH]; reflexivity. Qed.

Lemma branch_contains_commit_iff (R : Remote) (repo b c : text) :
  _branch_contains_commit R repo b c = true <->
  api_compare R repo b c = Some (L "identical") \/
  api_compare R repo b c = Some (L "behind").
Proof.
  unfold _branch_contains_commit.
  destruct (api_compare R repo b c) as [st|].
  - cbn [existsb].
    destruct (list_eq_dec ascii_dec st (L "identical")) as [E1|N1];
    [subst; split; [intros _; left; reflexivity|reflexivity]|].
    destruct (list_eq_dec ascii_dec st (L "behind")) as [E2|N2];
    [subst; split; [intros _; right; reflexivity|intros _; cbn;
       destruct (list_eq_dec ascii_dec (L "behind") (L "identical")); reflexivity]|].
    cbn. split; [discriminate|]. intros [H|H]; inversion H; contradiction.
  - split; [discriminate|]. intros [H|H]; discriminate.
Qed.

Lemma startswith_nonempty (b p : text) :
  p <> [] -> startswith b p = true -> b <> [].
Proof. destruct p, b; simpl; congruence. Qed.

(** ** Claims on branch resolution and input classification *)

(** C3: for a tag [vX.Y.Z] and an organisation and repository with GitHub
    names (so that the patterns built from them compile), the branch
    resolution of tag mode always yields a non-empty branch name; when the
    remote tiers find nothing and the recipe records no branch, it is
    [releases/X.Y.0-main]. *)
Theorem resolve_branch_always_yields (R : Remote) (content org repo x y z : text) :
  github_name org = true -> github_name repo = true ->
  digit_string x = true -> digit_string y = true -> digit_string z = true ->
  resolve_branch R content org repo (tag_of x y z) <> [] /\
  (find_tag_branch R repo (tag_of x y z) = None ->
   get_current_branch_from_bb content org repo = None ->
   resolve_branch R content org repo (tag_of x y z)
   = L "releases/" ++ x ++ "."%char :: y ++ L ".0-main").
Proof.
  intros _ _ Hx Hy Hz. split.
  - unfold resolve_branch.
    destruct (find_tag_branch R repo (tag_of x y z)) as [[|c b]|]; try discriminate;
    destruct (get_current_branch_from_bb content org repo) as [[|c' b']|];
    discriminate.
  - intros H1 H2. unfold resolve_branch. rewrite H1, H2.
    rewrite (major_minor_tag _ _ _ Hx Hy Hz). rewrite <- app_assoc. reflexivity.
Qed.

(** C7: the naming-pattern tier of a tag [vX.Y.Z] probes, in this order,
    [releases/X.Y.0-main], [releases/X.Y.Z-main], [releases/X.Y-main],
    [release-X.Y] and [release-X.Y.Z], answers the first one that exists,
    or nothing when none exists; when the remote lookup finds no branch,
    [find_tag_branch] answers what this tier answers. *)
Theorem pattern_fallback_order (R : Remote) (repo x y z : text) :
  digit_string x = true -> digit_string y = true -> digit_string z = true ->
  let tag := tag_of x y z in
  let mm := x ++ "."%char :: y in
  let v := x ++ "."%char :: y ++ "."%char :: z in
  let pats := [L "releases/" ++ mm ++ L ".0-main"; L "releases/" ++ v ++ L "-main";
               L "releases/" ++ mm ++ L "-main"; L "release-" ++ mm;
               L "release-" ++ v] in
  branch_patterns tag = pats /\
  (forall p, _find_branch_by_pattern R repo tag = Some p <->
     exists pre post, pats = pre ++ p :: post /\ api_branch_exists R repo p = true /\
       forall p', In p' pre -> api_branch_exists R repo p' = false) /\
  (_find_branch_by_pattern R repo tag = None <->
     forall p, In p pats -> api_branch_exists R repo p = false) /\
  ((forall sha, api_tag_ref R repo tag = Some sha ->
      _find_branch_containing_commit R repo (_get_commit_sha R repo sha) = None) ->
   find_tag_branch R repo tag = _find_branch_by_pattern R repo tag).
Proof.
  intros Hx Hy Hz tag mm v pats.
  assert (Hp : branch_patterns tag = pats).
  { unfold branch_patterns, tag, pats, mm, v.
    rewrite (lstrip_tag _ _ _ Hx), (split_tag _ _ _ Hx Hy Hz). reflexivity. }
  split; [exact Hp|].
  unfold _find_branch_by_pattern, _branch_exists. rewrite Hp.
  split; [intros p; apply find_first|].
  split; [apply find_none|].
  intros Htier. unfold find_tag_branch, _get_tag_sha. cbv zeta.
  destruct (api_tag_ref R repo tag) as [sha|] eqn:E.
  1: rewrite (Htier sha eq_refl); cbn iota;
     destruct (truthy (Some sha)); [destruct (truthy (Some (_get_commit_sha R repo sha)))|].
  all: unfold _find_branch_by_pattern, _branch_exists; rewrite Hp.
  all: destruct (find (fun p => api_branch_exists R repo p) pats) as [p|] eqn:F;
    [|reflexivity].
  all: apply find_first in F as (pre & post & Ep & _ & _).
  all: assert (In p pats) as Hin by (rewrite Ep; apply in_or_app; right; left; reflexivity).
  all: clear Ep.
  all: unfold pats in Hin; simpl in Hin.
  all: destruct Hin as [<-|[<-|[<-|[<-|[<-|[]]]]]]; reflexivity.
Qed.

(** C8: the remote tier keeps the listed branches whose name starts with
    [releases/], judges one to contain the commit exactly when the compare
    status is [identical] or [behind], and answers the first such branch in
    listing order; [find_tag_branch] answers it once the tag's commit is
    resolved. *)
Theorem primary_tier_first_release_branch (R : Remote) (repo commit : text)
    (names : list text) :
  api_branches R repo = Some (map Some names) ->
  (forall b, _find_branch_containing_commit R repo commit = Some b <->
     exists pre post, names = pre ++ b :: post /\
       startswith b (L "releases/") = true /\
       (api_compare R repo b commit = Some (L "identical") \/
        api_compare R repo b commit = Some (L "behind")) /\
       forall b', In b' pre -> startswith b' (L "releases/") = true ->
         api_compare R repo b' commit <> Some (L "identical") /\
         api_compare R repo b' commit <> Some (L "behind")) /\
  (forall tag sha b, api_tag_ref R repo tag = Some sha -> sha <> [] ->
     _get_commit_sha R repo sha = commit -> commit <> [] ->
     _find_branch_containing_commit R repo commit = Some b ->
     find_tag_branch R repo tag = Some b).
Proof.
  intros Hb.
  assert (Hfind : forall b, _find_branch_containing_commit R repo commit = Some b <->
     exists pre post, names = pre ++ b :: post /\
       startswith b (L "releases/") = true /\
       (api_compare R repo b commit = Some (L "identical") \/
        api_compare R repo b commit = Some (L "behind")) /\
       forall b', In b' pre -> startswith b' (L "releases/") = true ->
         api_compare R repo b' commit <> Some (L "identical") /\
         api_compare R repo b' commit <> Some (L "behind")).
  { intros b. unfold _find_branch_containing_commit. rewrite Hb, all_names_some.
    rewrite find_filter_first.
    split; intros (pre & post & E & G & F & P); exists pre, post;
      (split; [exact E|split; [exact G|split]]).
    - apply branch_contains_commit_iff. exact F.
    - intros b' Hin Gb'. specialize (P b' Hin Gb').
      split; intros Hc; pose proof (proj2 (branch_contains_commit_iff R repo b' commit))
        as Hi; rewrite Hi in P; auto; discriminate.
    - apply branch_contains_commit_iff. exact F.
    - intros b' Hin Gb'. destruct (P b' Hin Gb') as [N1 N2].
      destruct (_branch_contains_commit R repo b' commit) eqn:C; [|reflexivity].
      apply branch_contains_commit_iff in C as [C|C]; contradiction. }
  split; [exact Hfind|].
  intros tag sha b Ht Hs Hc Hcn Hf.
  assert (Hbn : b <> []).
  { destruct (proj1 (Hfind b) Hf) as (pre & post & _ & G & _).
    apply (startswith_nonempty b (L "releases/")); [discriminate|exact G]. }
  unfold find_tag_branch, _get_tag_sha. rewrite Ht.
  destruct sha as [|s0 sha]; [contradiction|]. cbn [truthy]. rewrite Hc.
  destruct commit as [|c0 commit]; [contradiction|]. cbn [truthy]. rewrite Hf.
  destruct b as [|b0 b]; [contradiction|]. reflexivity.
Qed.

(** C9: when the recipe file does not exist, or the specifier is neither a
    version tag nor a release branch, [update_bb_file] returns [False],
    raises nothing and writes nothing. *)
Theorem update_rejects_without_write (R : Remote) (org spec repo : text)
    (file : bb_path) (comp : text) :
  (bb_exists file = false \/ (is_version_tag spec = false /\ is_release_branch spec = false)) ->
  update_bb_file R org spec repo file comp
  = {| raised := false; returned := false; written := None |}.
Proof.
  intros H. unfold update_bb_file.
  destruct H as [->|[-> ->]]; [reflexivity|].
  destruct (bb_exists file); reflexivity.
Qed.

Lemma resolve_branch_always_yields_witness :
  resolve_branch offline [] rdkcentral wan_manager (L "v2.11.0")
  = L "releases/2.11.0-main".
Proof.
  exact (proj2 (resolve_branch_always_yields offline [] rdkcentral wan_manager
                  (L "2") (L "11") (L "0") eq_refl eq_refl eq_refl eq_refl eq_refl)
               eq_refl eq_refl).
Defined.

Lemma pattern_fallback_order_witness :
  find_tag_branch pattern_remote wan_manager (L "v2.11.3")
  = Some (L "releases/2.11-main").
Proof.
  pose proof (pattern_fallback_order pattern_remote wan_manager (L "2") (L "11") (L "3")
                eq_refl eq_refl eq_refl) as H.
  cbv zeta in H. destruct H as (_ & _ & _ & H).
  change (L "v2.11.3") with (tag_of (L "2") (L "11") (L "3")).
  rewrite H; [reflexivity|]. intros sha E. discriminate.
Defined.

Lemma primary_tier_first_release_branch_witness :
  find_tag_branch listing_remote wan_manager (L "v2.11.0")
  = Some (L "releases/2.11.0-main").
Proof.
  apply (proj2 (primary_tier_first_release_branch listing_remote wan_manager
                  (L "abc123")
                  [L "main"; L "releases/2.10.0-main"; L "releases/2.11.0-main";
                   L "releases/2.12.0-main"] eq_refl)
           (L "v2.11.0") (L "abc123")); try reflexivity; discriminate.
Defined.

Lemma update_rejects_without_write_witness :
  update_bb_file offline rdkcentral (L "1.3.0") wan_manager (recipe_at branch_recipe) WanManager
  = {| raised := false; returned := false; written := None |}.
Proof.
  apply update_rejects_without_write. right. split; reflexivity.
Defined.

(** ** Claims on the rewrite *)

(** C1 (code bug): a branch-mode recipe sent through tag mode and back to
    branch mode ends with two active [SRCREV] lines: branch mode turns the
    [PV] line into [SRCREV = <dq>${AUTOREV}<dq>] and also uncomments the
    [#SRCREV] line tag mode left. *)
Theorem branch_mode_duplicates_srcrev :
  let tagged := written_text (update_bb_file offline rdkcentral (L "v1.1.0") wan_manager
                                (recipe_at branch_recipe) WanManager) in
  let back := update_bb_file offline rdkcentral (L "releases/1.2.0-main") wan_manager
                (recipe_at tagged) WanManager in
  lines_starting (L "PV = ") tagged = [pv_line] /\
  lines_starting (L "#SRCREV = ") tagged = [L "#SRCREV = " ++ quoted (L "${AUTOREV}")] /\
  lines_starting (L "SRCREV = ") tagged = [] /\
  returned back = true /\
  lines_starting (L "SRCREV = ") (written_text back) = [srcrev_autorev; srcrev_autorev].
Proof. vm_compute. repeat split. Qed.

(** C2 (code bug): running tag mode a second time with the same tag and the
    same resolved branch changes a recipe whose source line carries a quoted
    remark after its value: the first run inserts [PV] in front of the
    remark, the second run's [PV = <dq>.*<dq>] swallows it. *)
Theorem tag_mode_second_run_differs :
  let w1 := written_text (update_bb_file offline rdkcentral (L "v1.1.0") wan_manager
                            (recipe_at remark_recipe) WanManager) in
  let w2 := written_text (update_bb_file offline rdkcentral (L "v1.1.0") wan_manager
                            (recipe_at w1) WanManager) in
  resolve_branch offline remark_recipe rdkcentral wan_manager (L "v1.1.0")
  = resolve_branch offline w1 rdkcentral wan_manager (L "v1.1.0") /\
  w2 <> w1.
Proof. vm_compute. split; [reflexivity|discriminate]. Qed.

(** C5, refuted: a recipe with a run of two blank lines, fewer than three,
    comes out of the cleanup with one. *)
Lemma cleanup_two_blank_lines_counterexample :
  split_on nl blank_recipe = [L "A"; []; []; L "B"; []] /\
  written_text (update_bb_file offline rdkcentral (L "releases/1.0.0-main") wan_manager
                  (recipe_at blank_recipe) WanManager)
  = unlines [L "A"; []; L "B"].
Proof. vm_compute. split; reflexivity. Qed.


(** ** The blank-line cleanup *)

Lemma eqb_nl_nl : Ascii.eqb nl nl = true.
Proof. reflexivity. Qed.

Lemma blank_bol (r : text) (sk : nat) (b b' : bool) (s : text) :
  sub_go m_blank_run r sk b s = sub_go m_blank_run r sk b' s.
Proof. destruct s; destruct sk; reflexivity. Qed.

Lemma sub_go_skip (m : matcher) (r : text) (b : bool) (x y : text) :
  sub_go m r (length x) b (x ++ y) = sub_go m r 0 (bol_after b x) y.
Proof.
  revert b; induction x as [|a x IH]; intros b; [reflexivity|].
  cbn [length app sub_go bol_after]. apply IH.
Qed.

Lemma take_nl_repeat (k : nat) (rest : text) :
  length (take_while (fun c => Ascii.eqb c nl) (repeat nl k ++ rest))
  = k + length (take_while (fun c => Ascii.eqb c nl) rest).
Proof.
  induction k as [|k IH]; [reflexivity|].
  cbn [repeat app take_while]. rewrite eqb_nl_nl. cbn [length]. rewrite IH. reflexivity.
Qed.

Lemma take_nl_run_end (rest : text) :
  run_end rest -> take_while (fun c => Ascii.eqb c nl) rest = [].
Proof. destruct rest as [|c r]; simpl; [auto|intros H; rewrite H; reflexivity]. Qed.

Lemma m_blank_head (k : nat) (b : bool) (rest : text) :
  run_end rest ->
  m_blank_run b (nl :: (repeat nl k ++ rest)) = if 3 <=? S k then Some (S k) else None.
Proof.
  intros He. unfold m_blank_run.
  change (nl :: repeat nl k ++ rest) with (repeat nl (S k) ++ rest).
  rewrite take_nl_repeat, (take_nl_run_end rest He), Nat.add_0_r. reflexivity.
Qed.

Lemma blank_short (k : nat) (b : bool) (rest : text) :
  k < 3 -> run_end rest ->
  sub_go m_blank_run [nl; nl] 0 b (repeat nl k ++ rest)
  = repeat nl k ++ sub_go m_blank_run [nl; nl] 0 b rest.
Proof.
  intros Hk He. revert b. induction k as [|k IH]; intros b; [reflexivity|].
  cbn [repeat app]. cbn [sub_go]. rewrite (m_blank_head k b rest He).
  replace (3 <=? S k) with false by (symmetry; apply Nat.leb_gt; lia).
  cbn [app]. f_equal. rewrite IH by lia. apply f_equal, blank_bol.
Qed.

Lemma blank_long (k : nat) (b : bool) (rest : text) :
  3 <= k -> run_end rest ->
  sub_go m_blank_run [nl; nl] 0 b (repeat nl k ++ rest)
  = [nl; nl] ++ sub_go m_blank_run [nl; nl] 0 b rest.
Proof.
  intros Hk He. destruct k as [|k]; [lia|].
  cbn [repeat app]. cbn [sub_go]. rewrite (m_blank_head k b rest He).
  replace (3 <=? S k) with true by (symmetry; apply Nat.leb_le; lia).
  cbn [app]. do 2 f_equal. rewrite <- (repeat_length nl k) at 1. rewrite sub_go_skip. apply blank_bol.
Qed.

Lemma blank_emit (k : nat) (b : bool) (rest : text) :
  run_end rest ->
  sub_go m_blank_run [nl; nl] 0 b (repeat nl k ++ rest)
  = collapse_emit k ++ sub_go m_blank_run [nl; nl] 0 b rest.
Proof.
  intros He. unfold collapse_emit. destruct (3 <=? k) eqn:E.
  - apply Nat.leb_le in E. apply blank_long; auto.
  - apply Nat.leb_gt in E. apply blank_short; auto.
Qed.

Lemma collapse_repeat (k j : nat) (s : text) :
  collapse_runs_go k (repeat nl j ++ s) = collapse_runs_go (k + j) s.
Proof.
  revert k; induction j as [|j IH]; intros k; [rewrite Nat.add_0_r; reflexivity|].
  cbn [repeat app collapse_runs_go]. rewrite eqb_nl_nl, IH. f_equal. lia.
Qed.

Lemma nl_run_split (s : text) :
  exists k rest, s = repeat nl k ++ rest /\ run_end rest.
Proof.
  induction s as [|c s (k & rest & E & He)].
  - exists 0, []. split; [reflexivity|exact I].
  - destruct (Ascii.eqb c nl) eqn:Ec.
    + apply Ascii.eqb_eq in Ec. subst c. exists (S k), rest. rewrite E. split; auto.
    + exists 0, (c :: s). split; [reflexivity|exact Ec].
Qed.

Lemma cleanup_collapse (s : text) : cleanup s = collapse_runs s.
Proof.
  unfold cleanup, re_sub, collapse_runs. generalize true as b.
  induction s as [s IH] using (induction_ltof1 _ (@length ascii)).
  intros b. destruct (nl_run_split s) as (k & rest & -> & He).
  rewrite blank_emit by exact He. rewrite collapse_repeat. cbn [Nat.add].
  destruct rest as [|c r]; [cbn [sub_go collapse_runs_go]; apply app_nil_r|].
  cbn [run_end] in He. cbn [sub_go collapse_runs_go]. unfold m_blank_run at 1.
  cbn [take_while]. rewrite He. cbn [length Nat.leb app]. f_equal. f_equal.
  apply IH. unfold ltof. rewrite length_app. cbn [length]. lia.
Qed.

(** ** Branch mode on a document in tag mode *)

Lemma free_app (c : ascii) (x y : text) : free c (x ++ y) = free c x && free c y.
Proof. unfold free. apply forallb_app. Qed.

Lemma free_prefixb (c : ascii) (p t : text) :
  free c t = true -> prefixb p t = true -> free c p = true.
Proof.
  intros Ht Hp. destruct (prefixb_true_app p t Hp) as [u ->].
  rewrite free_app in Ht. apply andb_prop in Ht. tauto.
Qed.

Lemma free_contains (c : ascii) (p t : text) :
  free c t = true -> contains p t = true -> free c p = true.
Proof.
  induction t as [|d t IH]; intros Ht Hc; cbn [contains] in Hc.
  - destruct p; [reflexivity|discriminate].
  - apply orb_prop in Hc as [Hc|Hc]; [eapply free_prefixb; eauto|].
    unfold free in Ht; cbn [forallb] in Ht. apply andb_prop in Ht as [_ Ht].
    apply IH; [exact Ht|exact Hc].
Qed.

Lemma contains_false_free (c : ascii) (p t : text) :
  free c t = true -> free c p = false -> contains p t = false.
Proof.
  intros Ht Hp. destruct (contains p t) eqn:E; [|reflexivity].
  rewrite (free_contains c p t Ht E) in Hp. discriminate.
Qed.

Lemma prefixb_contains (p t : text) : prefixb p t = true -> contains p t = true.
Proof. intros H. destruct t; cbn [contains]; rewrite H; reflexivity. Qed.

Lemma prefixb_app_l (p q t : text) : prefixb (p ++ q) t = true -> prefixb p t = true.
Proof.
  intros H. destruct (prefixb_true_app _ _ H) as [u ->].
  rewrite <- app_assoc. apply prefixb_app.
Qed.

Lemma contains_app_l (p q t : text) : contains (p ++ q) t = true -> contains p t = true.
Proof.
  induction t as [|d t IH]; intros H; cbn [contains] in H |- *;
    apply orb_prop in H as [H|H].
  - rewrite (prefixb_app_l p q [] H). reflexivity.
  - discriminate.
  - rewrite (prefixb_app_l p q _ H). reflexivity.
  - rewrite (IH H). apply orb_true_r.
Qed.

Lemma contains_tail (c : ascii) (p t : text) : contains (c :: p) t = true -> contains p t = true.
Proof.
  induction t as [|d t IH]; intros H; cbn [contains] in H; apply orb_prop in H as [H|H];
    try discriminate.
  - cbn [prefixb] in H. apply andb_prop in H as [_ H].
    cbn [contains]. rewrite (prefixb_contains p t H). apply orb_true_r.
  - cbn [contains]. rewrite (IH H). apply orb_true_r.
Qed.

Lemma prefixb_line (p y rest : text) :
  free nl p = true -> free nl y = true -> prefixb p (y ++ nl :: rest) = true ->
  prefixb p y = true.
Proof.
  revert y; induction p as [|c p IH]; intros y Hp Hy H; [reflexivity|].
  unfold free in Hp; cbn [forallb] in Hp. apply andb_prop in Hp as [Hc Hp].
  apply negb_true_iff in Hc.
  destruct y as [|d y]; cbn [app prefixb] in H |- *.
  - rewrite Hc in H. discriminate.
  - unfold free in Hy; cbn [forallb] in Hy. apply andb_prop in Hy as [_ Hy].
    apply andb_prop in H as [Hcd H]. rewrite Hcd. apply IH; assumption.
Qed.

Lemma prefixb_nl (p rest : text) :
  p <> [] -> free nl p = true -> prefixb p (nl :: rest) = false.
Proof.
  destruct p as [|c p]; [congruence|]. intros _ H.
  unfold free in H; cbn [forallb] in H. apply andb_prop in H as [Hc _].
  apply negb_true_iff in Hc. cbn [prefixb]. rewrite Hc. reflexivity.
Qed.

Lemma bol_after_app (b : bool) (x y : text) :
  bol_after b (x ++ y) = bol_after (bol_after b x) y.
Proof. revert b; induction x as [|c x IH]; intros b; [reflexivity|]. apply IH. Qed.

Lemma bol_after_line (b : bool) (x : text) :
  x <> [] -> free nl x = true -> bol_after b x = false.
Proof.
  revert b; induction x as [|c x IH]; intros b Hx H; [congruence|].
  unfold free in H; cbn [forallb] in H. apply andb_prop in H as [Hc H].
  apply negb_true_iff in Hc. cbn [bol_after]. rewrite Hc.
  destruct x as [|d x]; [reflexivity|]. apply IH; [discriminate|exact H].
Qed.

Lemma free_cons (c d : ascii) (x : text) :
  free c (d :: x) = true -> Ascii.eqb d c = false /\ free c x = true.
Proof.
  intros H. unfold free in H; cbn [forallb] in H. apply andb_prop in H as [Hd H].
  apply negb_true_iff in Hd. split; assumption.
Qed.

(** A line no substitution touches passes through an unanchored scan. *)
Lemma sub_go_free_line (m : matcher) (r p : text) (bol : bool) (x rest : text) :
  (forall b t, prefixb p t = false -> m b t = None) -> p <> [] -> free nl p = true ->
  free nl x = true -> contains p x = false ->
  sub_go m r 0 bol (x ++ nl :: rest) = x ++ nl :: sub_go m r 0 true rest.
Proof.
  intros Hm Hp Hpn. revert bol; induction x as [|c x IH]; intros bol Hx Hc.
  - cbn [app sub_go]. rewrite (Hm bol _ (prefixb_nl p rest Hp Hpn)). reflexivity.
  - cbn [app sub_go].
    assert (Hpre : prefixb p (c :: x ++ nl :: rest) = false).
    { destruct (prefixb p (c :: x ++ nl :: rest)) eqn:E; [|reflexivity].
      apply (prefixb_line p (c :: x) rest Hpn Hx) in E.
      rewrite (prefixb_contains _ _ E) in Hc. discriminate. }
    rewrite (Hm bol _ Hpre). f_equal.
    apply free_cons in Hx as [_ Hx].
    cbn [contains] in Hc. apply orb_false_elim in Hc as [_ Hc].
    apply IH; assumption.
Qed.

(** The same away from a line start for an anchored pattern. *)
Lemma sub_go_bol_false (m : matcher) (r : text) (x rest : text) :
  (forall t, m false t = None) -> free nl x = true ->
  sub_go m r 0 false (x ++ nl :: rest) = x ++ nl :: sub_go m r 0 true rest.
Proof.
  intros Hf. induction x as [|c x IH]; intros Hx.
  - cbn [app sub_go]. rewrite Hf. reflexivity.
  - cbn [app sub_go]. rewrite Hf. apply free_cons in Hx as [Hc Hx]. rewrite Hc.
    f_equal. apply IH; assumption.
Qed.

Lemma sub_go_free_line_bol (m : matcher) (r p : text) (bol : bool) (x rest : text) :
  (forall t, m false t = None) -> (forall t, prefixb p t = false -> m true t = None) ->
  p <> [] -> free nl p = true -> free nl x = true ->
  (bol = false \/ prefixb p x = false) ->
  sub_go m r 0 bol (x ++ nl :: rest) = x ++ nl :: sub_go m r 0 true rest.
Proof.
  intros Hf Ht Hp Hpn Hx Hb.
  destruct bol; [|apply sub_go_bol_false; assumption].
  destruct Hb as [Hb|Hb]; [discriminate|].
  destruct x as [|c x].
  - cbn [app sub_go]. rewrite (Ht _ (prefixb_nl p rest Hp Hpn)). reflexivity.
  - cbn [app sub_go].
    assert (Hpre : prefixb p (c :: x ++ nl :: rest) = false).
    { destruct (prefixb p (c :: x ++ nl :: rest)) eqn:E; [|reflexivity].
      rewrite (prefixb_line p (c :: x) rest Hpn Hx E) in Hb. discriminate. }
    rewrite (Ht _ Hpre). apply free_cons in Hx as [Hc Hx]. rewrite Hc.
    f_equal. apply sub_go_bol_false; assumption.
Qed.

(** A match covering exactly [x]. *)
Lemma sub_go_match (m : matcher) (r : text) (bol : bool) (x rest : text) :
  x <> [] -> m bol (x ++ rest) = Some (length x) ->
  sub_go m r 0 bol (x ++ rest) = r ++ sub_go m r 0 (bol_after bol x) rest.
Proof.
  destruct x as [|c x]; [congruence|]. intros _ H.
  cbn [app length] in H |- *. cbn [sub_go bol_after]. rewrite H. f_equal.
  apply sub_go_skip.
Qed.

(** A scan over newline-terminated lines, line by line. *)
Lemma sub_go_lines {A} (m : matcher) (r : text) (g f : A -> text) (ls : list A) :
  (forall a, In a ls -> forall rest,
     sub_go m r 0 true (g a ++ nl :: rest) = f a ++ sub_go m r 0 true rest) ->
  sub_go m r 0 true (unlines (map g ls)) = concat (map f ls).
Proof.
  unfold unlines. induction ls as [|a ls IH]; intros H; [reflexivity|].
  cbn [map concat]. rewrite <- app_assoc. cbn [app].
  rewrite (H a (or_introl eq_refl)), IH; [reflexivity|].
  intros b Hb. apply H. right. exact Hb.
Qed.

Lemma concat_lines {A} (g : A -> text) (ls : list A) :
  concat (map (fun a => g a ++ [nl]) ls) = unlines (map g ls).
Proof. unfold unlines. rewrite map_map. reflexivity. Qed.

Lemma concat_drop {A} (g : A -> text) (d : A -> bool) (ls : list A) :
  concat (map (fun a => if d a then [] else g a ++ [nl]) ls)
  = unlines (map g (filter (fun a => negb (d a)) ls)).
Proof.
  unfold unlines. induction ls as [|a ls IH]; [reflexivity|].
  cbn [map concat filter]. destruct (d a); cbn [negb map concat app]; rewrite IH; reflexivity.
Qed.

Lemma m_lit_lead (p : text) (b : bool) (t : text) :
  prefixb p t = false -> m_lit p b t = None.
Proof. intros H. unfold m_lit. rewrite H. reflexivity. Qed.

Lemma m_lit_bol_lead (p t : text) : prefixb p t = false -> m_lit_bol p true t = None.
Proof. intros H. unfold m_lit_bol. rewrite H. reflexivity. Qed.

Lemma m_assign_line_lead (p t : text) :
  prefixb p t = false -> m_assign_line p true t = None.
Proof. intros H. unfold m_assign_line, m_assign. rewrite H. reflexivity. Qed.

Lemma m_src_uri_lead (org repo : text) (b : bool) (t : text) :
  prefixb (L "SRC_URI") t = false -> m_src_uri org repo b t = None.
Proof. intros H. unfold m_src_uri, match_lit. rewrite H. reflexivity. Qed.

Lemma match_lit_app (p t : text) : match_lit p (p ++ t) = Some t.
Proof. unfold match_lit. rewrite prefixb_app, skipn_app_length. reflexivity. Qed.

Lemma match_name_self (p t : text) : free nl p = true -> match_name p (p ++ t) = Some t.
Proof.
  induction p as [|c p IH]; intros H; [reflexivity|].
  apply free_cons in H as [Hc H]. cbn [app match_name].
  destruct (Ascii.eqb c "."%char); [rewrite Hc|rewrite Ascii.eqb_refl]; apply IH, H.
Qed.

Lemma skip_while_app (f : ascii -> bool) (x y : text) :
  forallb f x = true -> skip_while f (x ++ y) = skip_while f y.
Proof.
  induction x as [|c x IH]; intros H; [reflexivity|].
  cbn [forallb] in H. apply andb_prop in H as [Hc H].
  cbn [app skip_while]. rewrite Hc. apply IH, H.
Qed.

Lemma last_quote_go_close (i : nat) (acc : option nat) (t rest : text) :
  free nl t = true -> last_quote_go i acc (t ++ dq :: nl :: rest) = Some (i + length t).
Proof.
  revert i acc; induction t as [|c t IH]; intros i acc H.
  - rewrite Nat.add_0_r. reflexivity.
  - apply free_cons in H as [Hc H]. cbn [app last_quote_go]. rewrite Hc.
    rewrite IH by exact H. cbn [length]. f_equal. lia.
Qed.

Lemma git_tag_line_match (tag rest : text) :
  free nl tag = true ->
  m_assign_line (L "GIT_TAG = " ++ [dq]) true ((git_tag_line tag ++ [nl]) ++ rest)
  = Some (length (git_tag_line tag ++ [nl])).
Proof.
  intros H. set (p := L "GIT_TAG = " ++ [dq]).
  assert (E : (git_tag_line tag ++ [nl]) ++ rest = p ++ tag ++ dq :: nl :: rest).
  { unfold git_tag_line, quoted, p. repeat (rewrite <- app_assoc || rewrite <- app_comm_cons). reflexivity. }
  assert (Hl : length (git_tag_line tag ++ [nl]) = S (length p + (0 + length tag) + 1)).
  { unfold git_tag_line, quoted, p. rewrite !length_app. cbn [length].
    rewrite !length_app. cbn [length]. lia. }
  rewrite E, Hl. unfold m_assign_line, m_assign. rewrite prefixb_app, skipn_app_length.
  unfold last_quote. rewrite (last_quote_go_close 0 None tag rest H).
  replace (p ++ tag ++ dq :: nl :: rest) with ((p ++ tag ++ [dq]) ++ nl :: rest)
    by (repeat (rewrite <- app_assoc || rewrite <- app_comm_cons); reflexivity).
  replace (length p + (0 + length tag) + 1) with (length (p ++ tag ++ [dq]))
    by (rewrite !length_app; cbn [length]; lia).
  rewrite skipn_app_length. reflexivity.
Qed.

Lemma tag_src_match (org repo u rest : text) (b : bool) :
  free nl org = true -> free nl repo = true -> free dq u = true ->
  m_src_uri org repo b (tline_text org repo (TagSrcLine u) ++ nl :: rest)
  = Some (length (tline_text org repo (TagSrcLine u))).
Proof.
  intros Ho Hr Hu.
  set (W := (org ++ L "/" ++ repo) ++ L ".git" ++ u ++ dq :: nl :: rest).
  set (Z := (dq :: L "git://github.com/") ++ W).
  assert (E : tline_text org repo (TagSrcLine u) ++ nl :: rest = L "SRC_URI" ++ L " := " ++ Z).
  { unfold Z, W, tline_text, quoted. repeat (rewrite <- app_assoc || rewrite <- app_comm_cons). reflexivity. }
  rewrite E at 1. unfold m_src_uri. rewrite match_lit_app.
  replace (skip_while is_space (L " := " ++ Z)) with (L ":= " ++ Z) by reflexivity.
  replace (skip_while is_colon_eq (L ":= " ++ Z)) with (L " " ++ Z) by reflexivity.
  cbv zeta.
  replace (length (L " " ++ Z) =? length (L ":= " ++ Z)) with false
    by (rewrite !length_app; symmetry; apply Nat.eqb_neq; cbn [L list_ascii_of_string length]; lia).
  replace (skip_while is_space (L " " ++ Z)) with Z by reflexivity.
  unfold Z. rewrite match_lit_app. unfold W.
  rewrite match_name_self
    by (rewrite !free_app, Ho, Hr; reflexivity).
  rewrite match_lit_app.
  rewrite skip_while_app by exact Hu.
  replace (skip_while (fun c => negb (Ascii.eqb c dq)) (dq :: nl :: rest)) with (dq :: nl :: rest)
    by reflexivity.
  f_equal. unfold tline_text, quoted. rewrite !length_app. cbn [length].
  rewrite !length_app. cbn [L list_ascii_of_string length]. lia.
Qed.

Lemma free_quoted (c : ascii) (s : text) : free c (quoted s) = free c [dq] && free c s.
Proof.
  unfold quoted, free. cbn [forallb]. rewrite forallb_app. cbn [forallb].
  destruct (negb (Ascii.eqb dq c)), (forallb _ s); reflexivity.
Qed.

(** Closes [free c t = true] for [t] built from literals and names known to
    be free of [c]. *)
Ltac free_solve :=
  repeat (rewrite free_app || rewrite free_quoted);
  repeat match goal with H : free ?c ?x = true |- context [free ?c ?x] => rewrite H end;
  reflexivity.

(** ** Templates without a backslash *)

Lemma existsb_bs_free (t : text) : free bs t = true -> existsb (Ascii.eqb bs) t = false.
Proof.
  unfold free. induction t as [|d t IH]; [reflexivity|]. cbn [forallb existsb].
  intros H. apply andb_prop in H as [H1 H2]. rewrite IH by exact H2.
  rewrite Ascii.eqb_sym. destruct (Ascii.eqb d bs); [discriminate|reflexivity].
Qed.

Lemma re_sub_tpl_plain (m : matcher) (r s : text) :
  free bs r = true -> re_sub_tpl m r s = Some (re_sub m r s).
Proof. intros H. unfold re_sub_tpl. rewrite existsb_bs_free by exact H. reflexivity. Qed.

Lemma github_name_free_bs (s : text) : github_name s = true -> free bs s = true.
Proof.
  unfold github_name, free. rewrite !forallb_forall. intros H c Hc. specialize (H c Hc).
  destruct (Ascii.eqb c bs) eqn:E; [|reflexivity].
  apply Ascii.eqb_eq in E. subst c. cbv in H. discriminate H.
Qed.

Lemma digit_string_free_bs (x : text) : digit_string x = true -> free bs x = true.
Proof.
  destruct x as [|d x]; [discriminate|]. unfold digit_string, free.
  rewrite !forallb_forall. intros H c Hc. specialize (H c Hc).
  destruct (Ascii.eqb c bs) eqn:E; [|reflexivity].
  apply Ascii.eqb_eq in E. subst c. cbv in H. discriminate H.
Qed.

Lemma tag_of_free_bs (x y z : text) :
  digit_string x = true -> digit_string y = true -> digit_string z = true ->
  free bs (tag_of x y z) = true.
Proof.
  intros Hx Hy Hz. apply digit_string_free_bs in Hx, Hy, Hz.
  unfold tag_of. rewrite !free_app. cbn [free forallb]. unfold free in *.
  rewrite forallb_app. cbn [forallb]. rewrite Hx, Hy, Hz. reflexivity.
Qed.

Lemma tag_src_uri_plain (org repo branch comp : text) :
  github_name org = true -> github_name repo = true -> free bs branch = true ->
  free bs comp = true -> free bs (tag_src_uri org repo branch comp) = true.
Proof.
  intros Ho Hr Hb Hc. apply github_name_free_bs in Ho, Hr. unfold tag_src_uri. free_solve.
Qed.

Lemma branch_src_uri_plain (org repo branch comp : text) :
  github_name org = true -> github_name repo = true -> free bs branch = true ->
  free bs comp = true -> free bs (branch_src_uri org repo branch comp) = true.
Proof.
  intros Ho Hr Hb Hc. apply github_name_free_bs in Ho, Hr. unfold branch_src_uri. free_solve.
Qed.

Lemma update_tag_content_plain (org repo comp tag branch content : text) :
  github_name org = true -> github_name repo = true -> free bs comp = true ->
  free bs tag = true -> free bs branch = true ->
  exists w, update_tag_content org repo comp tag branch content = Some w.
Proof.
  intros Ho Hr Hc Ht Hb. unfold update_tag_content. cbv zeta.
  rewrite (re_sub_tpl_plain _ (git_tag_line tag)) by (unfold git_tag_line; free_solve).
  destruct (negb (contains (L "GIT_TAG = ") content));
    [destruct (0 <? insert_index (split_on nl content))%Z|]; cbv beta iota;
    rewrite re_sub_tpl_plain by (apply tag_src_uri_plain; assumption);
    eexists; reflexivity.
Qed.

Lemma update_branch_content_plain (org repo comp branch content : text) :
  github_name org = true -> github_name repo = true -> free bs comp = true ->
  free bs branch = true ->
  exists w, update_branch_content org repo comp branch content = Some w.
Proof.
  intros Ho Hr Hc Hb. unfold update_branch_content. cbv zeta.
  rewrite re_sub_tpl_plain by (apply branch_src_uri_plain; assumption).
  eexists; reflexivity.
Qed.

Lemma rewrite_content_plain (R : Remote) (org spec repo c comp : text) :
  github_name org = true -> github_name repo = true -> free bs comp = true ->
  free bs spec = true ->
  (is_version_tag spec = true -> free bs (resolve_branch R c org repo spec) = true) ->
  exists d, rewrite_content R org spec repo c comp = Some d.
Proof.
  intros Ho Hr Hc Hs Hb. unfold rewrite_content.
  destruct (is_version_tag spec).
  - apply update_tag_content_plain; auto.
  - apply update_branch_content_plain; auto.
Qed.

Lemma finish_write_not_rejected (bb : bb_path) (r : option text) :
  finish_write bb r <> {| raised := false; returned := false; written := None |}.
Proof. unfold finish_write. destruct r; [destruct (bb_write_ok bb)|]; discriminate. Qed.

Lemma update_bb_file_read (R : Remote) (org spec repo c comp : text) (bb : bb_path) :
  (is_version_tag spec || is_release_branch spec) = true ->
  bb_exists bb = true -> bb_read bb = Some c ->
  update_bb_file R org spec repo bb comp = finish_write bb (rewrite_content R org spec repo c comp).
Proof.
  intros Hv He Hr. unfold update_bb_file. rewrite He, Hr.
  destruct (is_version_tag spec), (is_release_branch spec); try discriminate Hv; reflexivity.
Qed.

(** Splits the conjunctions and case facts of a concrete outcome. *)
Ltac outcome_case :=
  repeat split; intros; cbn [returned raised written] in *;
  repeat match goal with
         | H : _ /\ _ |- _ => destruct H
         | H : exists _, _ |- _ => destruct H
         | H : Some _ = Some _ |- _ => injection H as H; subst
         end;
  try discriminate; try reflexivity;
  try (eexists; eexists; repeat split; first [reflexivity | eassumption]);
  try congruence.

(** ** Claims on the outcome of update_bb_file *)

(** C5, as amended: the cleanup replaces every maximal run of three or more
    newline characters (two or more blank lines) by two newline characters
    and leaves everything else as it is; a valid run on an existing recipe
    that reads hands the whole cleaned rewrite to [write_text] when the
    rewrite raises nothing, and writes nothing when it raises.  The
    organisation and the repository are GitHub names. *)
Theorem cleanup_collapses_long_runs (R : Remote) (org spec repo c comp : text) (bb : bb_path)
    (Ho : github_name org = true) (Hg : github_name repo = true)
    (Hv : (is_version_tag spec || is_release_branch spec) = true)
    (He : bb_exists bb = true) (Hr : bb_read bb = Some c) :
  (forall s, cleanup s = collapse_runs s) /\
  (forall d, rewrite_content R org spec repo c comp = Some d ->
     written (update_bb_file R org spec repo bb comp) = Some (collapse_runs d)) /\
  (rewrite_content R org spec repo c comp = None ->
     written (update_bb_file R org spec repo bb comp) = None).
Proof.
  rewrite (update_bb_file_read R org spec repo c comp bb Hv He Hr).
  split; [exact cleanup_collapse|]. unfold finish_write. split.
  - intros d ->. rewrite cleanup_collapse. destruct (bb_write_ok bb); reflexivity.
  - intros ->. reflexivity.
Qed.

(** Witness: branch mode on the recipe with two blank lines. *)
Lemma cleanup_collapses_long_runs_witness :
  written (update_bb_file offline rdkcentral (L "releases/1.0.0-main") wan_manager
             (recipe_at blank_recipe) WanManager)
  = Some (collapse_runs blank_recipe).
Proof.
  apply (proj1 (proj2 (cleanup_collapses_long_runs offline rdkcentral (L "releases/1.0.0-main")
                         wan_manager blank_recipe WanManager (recipe_at blank_recipe)
                         eq_refl eq_refl eq_refl eq_refl eq_refl))).
  vm_compute. reflexivity.
Defined.



(** C10: every specifier that starts with [v] and three dot-separated
    numbers is a version tag whatever follows.  On an existing recipe that
    reads, with an organisation and a repository that are GitHub names,
    [update_bb_file] does not reject it but runs the tag-mode rewrite and
    hands its cleaned result to [write_text]; the run returns [True] when
    neither what follows the numbers, the component name nor the resolved
    branch holds a backslash, and the write succeeds. *)
Theorem version_tag_prefix_only (x y z rest : text) :
  digit_string x = true -> digit_string y = true -> digit_string z = true ->
  is_version_tag (tag_of x y z ++ rest) = true /\
  forall R org repo bb content comp,
    bb_exists bb = true -> bb_read bb = Some content ->
    github_name org = true -> github_name repo = true ->
    update_bb_file R org (tag_of x y z ++ rest) repo bb comp
    = finish_write bb (update_tag_content org repo comp (tag_of x y z ++ rest)
                         (resolve_branch R content org repo (tag_of x y z ++ rest)) content) /\
    update_bb_file R org (tag_of x y z ++ rest) repo bb comp
    <> {| raised := false; returned := false; written := None |} /\
    (free bs comp = true -> free bs rest = true ->
     free bs (resolve_branch R content org repo (tag_of x y z ++ rest)) = true ->
     bb_write_ok bb = true ->
     returned (update_bb_file R org (tag_of x y z ++ rest) repo bb comp) = true).
Proof.
  intros Hx Hy Hz.
  pose proof (is_version_tag_prefix x y z rest Hx Hy Hz) as Ht.
  split; [exact Ht|].
  intros R org repo bb content comp He Hr Ho Hrp.
  assert (E : update_bb_file R org (tag_of x y z ++ rest) repo bb comp
              = finish_write bb (update_tag_content org repo comp (tag_of x y z ++ rest)
                   (resolve_branch R content org repo (tag_of x y z ++ rest)) content)).
  { rewrite (update_bb_file_read R org _ repo content comp bb) by (rewrite ?Ht; reflexivity || assumption).
    unfold rewrite_content. rewrite Ht. reflexivity. }
  split; [exact E|]. split; [rewrite E; apply finish_write_not_rejected|].
  intros Hc Hs Hb Hw. rewrite E.
  destruct (update_tag_content_plain org repo comp (tag_of x y z ++ rest)
              (resolve_branch R content org repo (tag_of x y z ++ rest)) content Ho Hrp Hc)
    as [w ->]; [rewrite free_app, (tag_of_free_bs x y z Hx Hy Hz), Hs; reflexivity|exact Hb|].
  unfold finish_write. rewrite Hw. reflexivity.
Qed.

(** Witness: [v1.2.3-rc1] and [v1.2.3.4], and a tag-mode run on the recipe
    without [LIC_FILES_CHKSUM]. *)
Lemma version_tag_prefix_only_witness :
  is_version_tag (L "v1.2.3-rc1") = true /\ is_version_tag (L "v1.2.3.4") = true /\
  returned (update_bb_file offline rdkcentral (L "v1.2.3-rc1") wan_manager
              (recipe_at bare_recipe) WanManager) = true.
Proof.
  destruct (version_tag_prefix_only (L "1") (L "2") (L "3") (L "-rc1") eq_refl eq_refl eq_refl)
    as [H1 H2].
  split; [exact H1|]. split.
  - exact (proj1 (version_tag_prefix_only (L "1") (L "2") (L "3") (L ".4")
                    eq_refl eq_refl eq_refl)).
  - apply (H2 offline rdkcentral wan_manager (recipe_at bare_recipe) bare_recipe WanManager
             eq_refl eq_refl eq_refl eq_refl); vm_compute; reflexivity.
Defined.

Lemma words_app_nl (x y : text) : words (x ++ nl :: y) = words x ++ words y.
Proof. unfold words. rewrite split_on_app_sep, filter_app. reflexivity. Qed.

Lemma words_nl (y : text) : words (nl :: y) = words y.
Proof. apply (words_app_nl [] y). Qed.

Lemma words_repeat (j : nat) (y : text) : words (repeat nl j ++ y) = words y.
Proof. induction j as [|j IH]; [reflexivity|]. cbn [repeat app]. rewrite words_nl. exact IH. Qed.

Lemma repeat_nl_snoc (k : nat) (s : text) : repeat nl k ++ nl :: s = nl :: repeat nl k ++ s.
Proof. induction k as [|k IH]; [reflexivity|]. cbn [repeat app]. rewrite IH. reflexivity. Qed.

Lemma collapse_emit_S (k : nat) :
  collapse_emit (S k) = nl :: repeat nl (if 3 <=? S k then 1 else k).
Proof. unfold collapse_emit. destruct (3 <=? S k); reflexivity. Qed.

Lemma words_collapse_go (s : text) (k : nat) (p : text) :
  words (p ++ collapse_runs_go k s) = words (p ++ repeat nl k ++ s).
Proof.
  revert k p; induction s as [|c s IH]; intros k p.
  - rewrite app_nil_r. destruct k as [|k]; [reflexivity|].
    cbn [collapse_runs_go]. rewrite collapse_emit_S. cbn [repeat].
    rewrite !words_app_nl, <- (app_nil_r (repeat nl _)), !words_repeat.
    rewrite <- (app_nil_r (repeat nl k)), words_repeat. reflexivity.
  - cbn [collapse_runs_go]. destruct (Ascii.eqb c nl) eqn:Ec.
    + apply Ascii.eqb_eq in Ec. subst c. rewrite IH, repeat_nl_snoc. reflexivity.
    + destruct k as [|k].
      * cbn [collapse_emit repeat Nat.leb app].
        replace (p ++ c :: collapse_runs_go 0 s) with ((p ++ [c]) ++ collapse_runs_go 0 s)
          by (rewrite <- app_assoc; reflexivity).
        rewrite IH. rewrite <- app_assoc. reflexivity.
      * rewrite collapse_emit_S. cbn [repeat app].
        rewrite !words_app_nl, !words_repeat.
        change (c :: collapse_runs_go 0 s) with ([c] ++ collapse_runs_go 0 s).
        rewrite IH. reflexivity.
Qed.

Lemma words_collapse (s : text) : words (collapse_runs s) = words s.
Proof. apply (words_collapse_go s 0 []). Qed.

Lemma words_unlines (xs : list text) :
  (forall x, In x xs -> free nl x = true) ->
  words (unlines xs) = filter (fun l => match l with [] => false | _ => true end) xs.
Proof.
  unfold unlines. induction xs as [|x xs IH]; intros H; [reflexivity|].
  cbn [map concat]. rewrite <- app_assoc. cbn [app].
  rewrite words_app_nl, IH by (intros y Hy; apply H; right; exact Hy).
  unfold words. rewrite (split_on_free nl x (H x (or_introl eq_refl))).
  cbn [filter app]. destruct x; reflexivity.
Qed.

Lemma lines_starting_words (p w : text) :
  p <> [] -> lines_starting p w = filter (fun l => startswith l p) (words w).
Proof.
  intros Hp. unfold lines_starting, words. induction (split_on nl w) as [|l ls IH];
    [reflexivity|].
  cbn [filter]. destruct l as [|c l].
  - destruct p; [congruence|]. exact IH.
  - cbn [filter]. rewrite IH. reflexivity.
Qed.

Lemma filter_all_false {A} (f : A -> bool) (l : list A) :
  (forall x, In x l -> f x = false) -> filter f l = [].
Proof.
  induction l as [|a l IH]; intros H; [reflexivity|].
  cbn [filter]. rewrite (H a (or_introl eq_refl)). apply IH.
  intros x Hx. apply H. right. exact Hx.
Qed.

Lemma contains_app_right (p a b : text) : contains p b = true -> contains p (a ++ b) = true.
Proof.
  induction a as [|c a IH]; intros H; [exact H|].
  cbn [app contains]. rewrite (IH H). apply orb_true_r.
Qed.

Lemma contains_app_left (p a b : text) : contains p a = true -> contains p (a ++ b) = true.
Proof.
  induction a as [|c a IH]; intros H; cbn [contains] in H.
  - destruct p; [destruct b; reflexivity|discriminate].
  - apply orb_prop in H as [H|H].
    + destruct (prefixb_true_app p _ H) as [u Hu].
      cbn [app]. rewrite app_comm_cons, Hu, <- app_assoc.
      apply prefixb_contains, prefixb_app.
    + cbn [app contains]. rewrite (IH H). apply orb_true_r.
Qed.

Lemma contains_unlines (p x : text) (xs : list text) :
  In x xs -> contains p x = true -> contains p (unlines xs) = true.
Proof.
  intros Hx Hp. apply in_split in Hx as (pre & post & ->).
  unfold unlines. rewrite map_app, concat_app. cbn [map concat].
  apply contains_app_right, contains_app_left, contains_app_left, Hp.
Qed.

Lemma prefixb_false_contains (p q t : text) :
  contains p t = false -> prefixb (p ++ q) t = false.
Proof.
  intros H. destruct (prefixb (p ++ q) t) eqn:E; [|reflexivity].
  apply prefixb_app_l, prefixb_contains in E. congruence.
Qed.

Lemma contains_false_app (p q t : text) :
  contains p t = false -> contains (p ++ q) t = false.
Proof.
  intros H. destruct (contains (p ++ q) t) eqn:E; [|reflexivity].
  apply contains_app_l in E. congruence.
Qed.

(** Splits a [tline_ok] hypothesis into its conditions. *)
Ltac ok_split :=
  repeat match goal with
  | H : _ && _ = true |- _ => apply andb_prop in H; destruct H
  | H : negb _ = true |- _ => apply negb_true_iff in H
  end.

Section BranchPass.

Variables org repo comp branch : text.
Hypothesis Ho : free nl org = true.
Hypothesis Hr : free nl repo = true.
Hypothesis Hc : free nl comp = true.
Hypothesis Hb : free nl branch = true.

Local Abbreviation stage := (branch_stage org repo comp branch).

Lemma tline_text_free (l : tline) : tline_ok l = true -> free nl (tline_text org repo l) = true.
Proof.
  intros H. destruct l; cbn [tline_ok tline_text] in *; ok_split;
    unfold git_tag_line, pv_line; free_solve.
Qed.

Lemma stage_free (n : nat) (l : tline) : tline_ok l = true -> free nl (stage n l) = true.
Proof.
  intros H. pose proof (tline_text_free l H) as Ht.
  destruct l; cbn [branch_stage] in *; try exact Ht;
    repeat match goal with |- context [if ?c then _ else _] => destruct c end;
    try exact Ht; unfold branch_src_uri, srcrev_autorev; cbn [tline_ok] in H; ok_split;
    free_solve.
Qed.

Lemma pass1_line (l : tline) (rest : text) :
  tline_ok l = true ->
  sub_go (m_assign_line (L "GIT_TAG = " ++ [dq])) [] 0 true (tline_text org repo l ++ nl :: rest)
  = (if is_git_tag_line l then [] else tline_text org repo l ++ [nl]) ++
    sub_go (m_assign_line (L "GIT_TAG = " ++ [dq])) [] 0 true rest.
Proof.
  intros H. destruct (is_git_tag_line l) eqn:Eg.
  - destruct l; try discriminate Eg. cbn [tline_ok tline_text] in *.
    replace (git_tag_line tag ++ nl :: rest) with ((git_tag_line tag ++ [nl]) ++ rest)
      by (rewrite <- app_assoc; reflexivity).
    rewrite sub_go_match;
      [| intros E; apply app_eq_nil in E as [_ E]; discriminate
       | apply git_tag_line_match; exact H].
    rewrite bol_after_app. reflexivity.
  - rewrite <- app_assoc.
    apply sub_go_free_line_bol with (p := L "GIT_TAG = " ++ [dq]);
      [intros t; reflexivity | apply m_assign_line_lead | discriminate | reflexivity
      | apply tline_text_free, H | right].
    destruct l; try discriminate Eg; try reflexivity.
    cbn [tline_ok tline_text] in *. ok_split.
    change (L "GIT_TAG = " ++ [dq]) with (L "GIT_TAG" ++ L " = " ++ [dq]).
    apply prefixb_false_contains. assumption.
Qed.

Lemma pass2_line (l : tline) (rest : text) :
  tline_ok l = true -> is_git_tag_line l = false ->
  sub_go (m_src_uri org repo) (branch_src_uri org repo branch comp) 0 true (stage 1 l ++ nl :: rest)
  = (stage 2 l ++ [nl]) ++
    sub_go (m_src_uri org repo) (branch_src_uri org repo branch comp) 0 true rest.
Proof.
  intros H Eg. rewrite <- app_assoc.
  assert (Hnl : forall b, sub_go (m_src_uri org repo) (branch_src_uri org repo branch comp) 0 b
                            (nl :: rest)
                = nl :: sub_go (m_src_uri org repo) (branch_src_uri org repo branch comp) 0 true rest).
  { intros b. apply (sub_go_free_line _ _ (L "SRC_URI") b [] rest);
      [apply m_src_uri_lead | discriminate | reflexivity | reflexivity | reflexivity]. }
  pose proof (tline_text_free l H) as Ht.
  destruct l; try discriminate Eg; cbn [branch_stage Nat.leb] in *; cbn [tline_ok] in H; ok_split.
  - apply sub_go_free_line with (p := L "SRC_URI");
      [apply m_src_uri_lead | discriminate | reflexivity | assumption | assumption].
  - rewrite sub_go_match; [| discriminate | apply tag_src_match; assumption].
    rewrite bol_after_line by (discriminate || exact Ht). rewrite Hnl. reflexivity.
  - apply sub_go_free_line with (p := L "SRC_URI");
      [apply m_src_uri_lead | discriminate | reflexivity | reflexivity | reflexivity].
  - apply sub_go_free_line with (p := L "SRC_URI");
      [apply m_src_uri_lead | discriminate | reflexivity | exact Ht |].
    apply contains_false_free with (c := "_"%char); [cbn [tline_text]; free_solve | reflexivity].
Qed.

Hypothesis Hod : free "$"%char org = true.
Hypothesis Hrd : free "$"%char repo = true.
Hypothesis Hcd : free "$"%char comp = true.
Hypothesis Hbd : free "$"%char branch = true.

Lemma branch_src_dollar : free "$"%char (branch_src_uri org repo branch comp) = true.
Proof. unfold branch_src_uri. free_solve. Qed.

Lemma pass3_line (l : tline) (rest : text) :
  tline_ok l = true -> is_git_tag_line l = false ->
  sub_go (m_lit pv_line) srcrev_autorev 0 true (stage 2 l ++ nl :: rest)
  = (stage 3 l ++ [nl]) ++ sub_go (m_lit pv_line) srcrev_autorev 0 true rest.
Proof.
  intros H Eg. rewrite <- app_assoc.
  pose proof (stage_free 2 l H) as Ht.
  destruct l; try discriminate Eg; cbn [branch_stage Nat.leb] in *; cbn [tline_ok] in H; ok_split.
  - apply sub_go_free_line with (p := pv_line);
      [apply m_lit_lead | discriminate | reflexivity | assumption |].
    unfold pv_line. apply contains_false_app. assumption.
  - apply sub_go_free_line with (p := pv_line);
      [apply m_lit_lead | discriminate | reflexivity | exact Ht |].
    apply contains_false_free with (c := "$"%char); [apply branch_src_dollar | reflexivity].
  - rewrite sub_go_match;
      [| discriminate | unfold m_lit; rewrite prefixb_app; reflexivity].
    replace (bol_after true pv_line) with false by reflexivity.
    reflexivity.
  - apply sub_go_free_line with (p := pv_line);
      [apply m_lit_lead | discriminate | reflexivity | exact Ht |].
    apply contains_false_free with (c := "_"%char); [cbn [tline_text]; free_solve | reflexivity].
Qed.

Lemma pass4_line (l : tline) (rest : text) :
  tline_ok l = true -> is_git_tag_line l = false ->
  sub_go (m_lit_bol (L "#SRCREV = ")) (L "SRCREV = ") 0 true (stage 3 l ++ nl :: rest)
  = (stage 4 l ++ [nl]) ++ sub_go (m_lit_bol (L "#SRCREV = ")) (L "SRCREV = ") 0 true rest.
Proof.
  intros H Eg. rewrite <- !app_assoc.
  pose proof (stage_free 3 l H) as Ht.
  destruct l; try discriminate Eg; cbn [branch_stage Nat.leb] in *; cbn [tline_ok] in H; ok_split;
    try (apply sub_go_free_line_bol with (p := L "#SRCREV = ");
         [intros ?; reflexivity | apply m_lit_bol_lead | discriminate | reflexivity
         | exact Ht | right; try reflexivity]).
  - cbn [tline_text]. destruct (prefixb (L "#SRCREV = ") t) eqn:E; [|reflexivity].
    apply prefixb_contains in E.
    change (L "#SRCREV = ") with ("#"%char :: L "SRCREV" ++ L " = ") in E.
    apply contains_tail, contains_app_l in E. congruence.
  - cbn [tline_text]. rewrite <- !app_assoc.
    rewrite (sub_go_match _ _ _ (L "#SRCREV = "));
      [| discriminate | unfold m_lit_bol; rewrite prefixb_app; reflexivity].
    replace (bol_after true (L "#SRCREV = ")) with false by reflexivity.
    rewrite sub_go_bol_false; [reflexivity | intros ?; reflexivity | assumption].
Qed.

End BranchPass.

(** The four substitutions of branch mode, on a document in tag mode. *)
Lemma branch_content_tag_mode (org repo comp branch : text) (ls : list tline) :
  free nl org = true -> free nl repo = true -> free nl comp = true -> free nl branch = true ->
  free "$"%char org = true -> free "$"%char repo = true ->
  free "$"%char comp = true -> free "$"%char branch = true ->
  github_name org = true -> github_name repo = true -> free bs comp = true ->
  free bs branch = true ->
  (forall l, In l ls -> tline_ok l = true) -> In PvLine ls ->
  update_branch_content org repo comp branch (tag_mode_doc org repo ls)
  = Some (unlines (map (branch_stage org repo comp branch 4)
                       (filter (fun l => negb (is_git_tag_line l)) ls))).
Proof.
  intros Ho Hr Hc Hb Hod Hrd Hcd Hbd Hog Hrg Hcb Hbb Hok Hpv.
  unfold update_branch_content. cbv zeta.
  rewrite re_sub_tpl_plain by (apply branch_src_uri_plain; assumption).
  cbv beta iota. f_equal.
  set (lsg := filter (fun l => negb (is_git_tag_line l)) ls).
  assert (Hg : forall l, In l lsg -> tline_ok l = true /\ is_git_tag_line l = false).
  { intros l Hl. apply filter_In in Hl as [Hl Hn]. split; [apply Hok, Hl|].
    destruct (is_git_tag_line l); [discriminate|reflexivity]. }
  unfold tag_mode_doc, re_sub.
  rewrite (sub_go_lines _ _ (tline_text org repo)
             (fun l => if is_git_tag_line l then [] else tline_text org repo l ++ [nl]) ls)
    by (intros l Hl rest; apply pass1_line; [exact Ho|exact Hr|apply Hok, Hl]).
  rewrite concat_drop. fold lsg.
  replace (map (tline_text org repo) lsg) with (map (branch_stage org repo comp branch 1) lsg)
    by (apply map_ext; intros []; reflexivity).
  rewrite (sub_go_lines _ _ _ (fun l => branch_stage org repo comp branch 2 l ++ [nl]) lsg)
    by (intros l Hl rest; destruct (Hg l Hl); apply pass2_line; assumption).
  rewrite concat_lines.
  rewrite (sub_go_lines _ _ _ (fun l => branch_stage org repo comp branch 3 l ++ [nl]) lsg)
    by (intros l Hl rest; destruct (Hg l Hl); apply pass3_line; assumption).
  rewrite concat_lines.
  rewrite (sub_go_lines _ _ _ (fun l => branch_stage org repo comp branch 4 l ++ [nl]) lsg)
    by (intros l Hl rest; destruct (Hg l Hl); apply pass4_line; assumption).
  rewrite concat_lines.
  assert (Hin : In srcrev_autorev (map (branch_stage org repo comp branch 4) lsg)).
  { change srcrev_autorev with (branch_stage org repo comp branch 4 PvLine).
    apply in_map, filter_In. split; [exact Hpv|reflexivity]. }
  rewrite (contains_unlines (L "SRCREV = ") _ _ Hin) by reflexivity.
  reflexivity.
Qed.

Lemma prefixb_false_of_contains (p t : text) : contains p t = false -> prefixb p t = false.
Proof.
  intros H. destruct (prefixb p t) eqn:E; [|reflexivity].
  apply prefixb_contains in E. congruence.
Qed.

(** What the lines of branch mode's result start with. *)
Lemma stage4_heads (org repo comp branch : text) (l : tline) :
  tline_ok l = true -> is_git_tag_line l = false ->
  let x := branch_stage org repo comp branch 4 l in
  startswith x (L "GIT_TAG") = false /\
  (startswith x (L "SRC_URI") = true -> x = branch_src_uri org repo branch comp) /\
  startswith x (L "#SRCREV") = false.
Proof.
  intros H Eg. cbv zeta.
  unfold startswith.
  destruct l; try discriminate Eg; cbn [branch_stage Nat.leb tline_text];
    cbn [tline_ok] in H; ok_split.
  - split; [apply prefixb_false_of_contains; assumption|split].
    + intros E. rewrite prefixb_false_of_contains in E by assumption. discriminate.
    + destruct (prefixb (L "#SRCREV") t) eqn:E; [|reflexivity].
      apply prefixb_contains in E.
      change (L "#SRCREV") with ("#"%char :: L "SRCREV") in E.
      apply contains_tail in E. congruence.
  - split; [reflexivity|split; [reflexivity|reflexivity]].
  - split; [reflexivity|split; [discriminate|reflexivity]].
  - split; [reflexivity|split; [discriminate|reflexivity]].
Qed.

Lemma words_split (x w : text) : In x (words w) -> In x (split_on nl w).
Proof. unfold words. intros H. apply filter_In in H. tauto. Qed.

Lemma in_words (x : text) (xs : list text) :
  (forall y, In y xs -> free nl y = true) -> In x xs -> x <> [] ->
  In x (words (cleanup (unlines xs))).
Proof.
  intros Hf Hx Hn. rewrite cleanup_collapse, words_collapse, words_unlines by exact Hf.
  apply filter_In. split; [exact Hx|]. destruct x; [congruence|reflexivity].
Qed.

Lemma lines_starting_cleanup (p : text) (xs : list text) :
  (forall y, In y xs -> free nl y = true) -> p <> [] ->
  forall x, In x (lines_starting p (cleanup (unlines xs))) -> In x xs /\ startswith x p = true.
Proof.
  intros Hf Hp x Hx.
  rewrite lines_starting_words, cleanup_collapse, words_collapse, words_unlines in Hx
    by assumption.
  apply filter_In in Hx as [Hx Hs]. apply filter_In in Hx as [Hx _]. tauto.
Qed.

Lemma nil_of_no_member {A} (l : list A) : (forall x, ~ In x l) -> l = [].
Proof. destruct l as [|a l]; [reflexivity|]. intros H. exfalso. apply (H a). left. reflexivity. Qed.




(** * Further properties of the code *)

(** ** The blank-line cleanup, continued *)

Lemma prefixb_sep (c : ascii) (p x y : text) :
  free c p = true -> prefixb p (x ++ c :: y) = prefixb p x.
Proof.
  revert x; induction p as [|d p IH]; intros x Hp; [destruct x; reflexivity|].
  apply free_cons in Hp as [Hd Hp].
  destruct x as [|e x]; cbn [app prefixb].
  - rewrite Hd. reflexivity.
  - rewrite IH by exact Hp. reflexivity.
Qed.

(** An occurrence of a pattern without [c] lies on one side of a [c]. *)
Lemma contains_sep (c : ascii) (p a b : text) :
  free c p = true -> p <> [] -> contains p (a ++ c :: b) = contains p a || contains p b.
Proof.
  intros Hf Hp. induction a as [|d a IH].
  - cbn [app contains]. rewrite (prefixb_sep c p [] b Hf : prefixb p (c :: b) = _).
    destruct p; [congruence|reflexivity].
  - change ((d :: a) ++ c :: b) with (d :: (a ++ c :: b)). cbn [contains].
    rewrite IH, <- orb_assoc. f_equal.
    apply (prefixb_sep c p (d :: a) b Hf).
Qed.

Lemma free_triple (c : ascii) : Ascii.eqb c nl = false -> free c [nl; nl; nl] = true.
Proof. intros H. unfold free. cbn [forallb]. rewrite Ascii.eqb_sym, H. reflexivity. Qed.

Lemma collapse_emit_short (k : nat) : contains [nl; nl; nl] (collapse_emit k) = false.
Proof.
  unfold collapse_emit. destruct (3 <=? k) eqn:E; [reflexivity|].
  apply Nat.leb_gt in E. destruct k as [|[|[|k]]]; try lia; reflexivity.
Qed.

Lemma collapse_step (k : nat) (c : ascii) (t : text) :
  Ascii.eqb c nl = false ->
  collapse_runs (repeat nl k ++ c :: t) = collapse_emit k ++ c :: collapse_runs t.
Proof.
  intros H. unfold collapse_runs. rewrite collapse_repeat. cbn [Nat.add collapse_runs_go].
  rewrite H. reflexivity.
Qed.

Lemma collapse_end (k : nat) : collapse_runs (repeat nl k ++ []) = collapse_emit k.
Proof. unfold collapse_runs. rewrite collapse_repeat. reflexivity. Qed.

Lemma collapse_no_triple (s : text) : contains [nl; nl; nl] (collapse_runs s) = false.
Proof.
  induction s as [s IH] using (induction_ltof1 _ (@length ascii)).
  destruct (nl_run_split s) as (k & rest & -> & He). destruct rest as [|c t].
  - rewrite collapse_end. apply collapse_emit_short.
  - cbn [run_end] in He. rewrite collapse_step by exact He.
    rewrite (contains_sep c) by (apply free_triple, He || discriminate).
    rewrite collapse_emit_short, IH; [reflexivity|].
    unfold ltof. rewrite length_app. cbn [length]. lia.
Qed.

Lemma no_triple_fixed (t : text) : contains [nl; nl; nl] t = false -> collapse_runs t = t.
Proof.
  induction t as [t IH] using (induction_ltof1 _ (@length ascii)).
  destruct (nl_run_split t) as (k & rest & -> & He). intros H.
  assert (Hk : k <= 2).
  { destruct k as [|[|[|k]]]; try lia. exfalso.
    assert (Hp : prefixb [nl; nl; nl] (repeat nl (S (S (S k))) ++ rest) = true)
      by reflexivity.
    apply prefixb_contains in Hp. congruence. }
  assert (Ee : collapse_emit k = repeat nl k).
  { unfold collapse_emit. replace (3 <=? k) with false by (symmetry; apply Nat.leb_gt; lia).
    reflexivity. }
  destruct rest as [|c u].
  - rewrite collapse_end, Ee, app_nil_r. reflexivity.
  - cbn [run_end] in He. rewrite collapse_step, Ee by exact He.
    rewrite (contains_sep c) in H by (apply free_triple, He || discriminate).
    apply orb_false_iff in H as [_ H].
    rewrite IH; [reflexivity| |exact H].
    unfold ltof. rewrite length_app. cbn [length]. lia.
Qed.

Lemma filter_nl_repeat (k : nat) :
  filter (fun c => negb (Ascii.eqb c nl)) (repeat nl k) = [].
Proof. induction k as [|k IH]; [reflexivity|]. cbn [repeat filter]. rewrite eqb_nl_nl. exact IH. Qed.

Lemma filter_nl_emit (k : nat) : filter (fun c => negb (Ascii.eqb c nl)) (collapse_emit k) = [].
Proof. unfold collapse_emit. destruct (3 <=? k); [reflexivity|apply filter_nl_repeat]. Qed.

Lemma collapse_filter_nl (s : text) :
  filter (fun c => negb (Ascii.eqb c nl)) (collapse_runs s)
  = filter (fun c => negb (Ascii.eqb c nl)) s.
Proof.
  induction s as [s IH] using (induction_ltof1 _ (@length ascii)).
  destruct (nl_run_split s) as (k & rest & -> & He). rewrite filter_app, filter_nl_repeat.
  destruct rest as [|c t].
  - rewrite collapse_end, filter_nl_emit. reflexivity.
  - cbn [run_end] in He. rewrite collapse_step by exact He.
    rewrite filter_app, filter_nl_emit. cbn [app filter]. rewrite He. cbn [negb].
    rewrite IH; [reflexivity|]. unfold ltof. rewrite length_app. cbn [length]. lia.
Qed.

(** The cleanup leaves no run of three newline characters anywhere in the
    text it returns. *)
Theorem cleanup_no_triple_newline (s : text) : contains [nl; nl; nl] (cleanup s) = false.
Proof. rewrite cleanup_collapse. apply collapse_no_triple. Qed.

(** The cleanup is idempotent: cleaning a cleaned text changes nothing. *)
Theorem cleanup_idempotent (s : text) : cleanup (cleanup s) = cleanup s.
Proof.
  rewrite (cleanup_collapse (cleanup s)). apply no_triple_fixed.
  rewrite cleanup_collapse. apply collapse_no_triple.
Qed.

(** The cleanup only deletes newline characters: the other characters are
    kept in order, and so are the non-empty lines. *)
Theorem cleanup_keeps_text (s : text) :
  filter (fun c => negb (Ascii.eqb c nl)) (cleanup s) = filter (fun c => negb (Ascii.eqb c nl)) s
  /\ words (cleanup s) = words s.
Proof.
  rewrite cleanup_collapse. split; [apply collapse_filter_nl|apply words_collapse].
Qed.

(** ** Where tag mode places [GIT_TAG] *)

Lemma insert_index_go_first (i : nat) (acc : Z) (lines : list text) :
  insert_index_go i acc lines =
  match find_index (contains (L "LIC_FILES_CHKSUM")) lines with
  | Some j => (Z.of_nat (i + j) + 1)%Z
  | None =>
      if (acc =? -1)%Z then
        match find_index (contains (L "DEPENDS")) lines with
        | Some j => (Z.of_nat (i + j) + 1)%Z
        | None => (-1)%Z
        end
      else acc
  end.
Proof.
  revert i acc; induction lines as [|l ls IH]; intros i acc.
  - cbn [insert_index_go find_index]. destruct (Z.eqb_spec acc (-1)); [subst|]; reflexivity.
  - cbn [insert_index_go find_index].
    destruct (contains (L "LIC_FILES_CHKSUM") l); [rewrite Nat.add_0_r; reflexivity|].
    destruct (contains (L "DEPENDS") l) eqn:Ed; cbn [andb];
      destruct (Z.eqb_spec acc (-1)) as [Ea|Ea].
    + rewrite IH. destruct (find_index (contains (L "LIC_FILES_CHKSUM")) ls);
        cbn [option_map].
      * f_equal. lia.
      * replace (Z.of_nat i + 1 =? -1)%Z with false by (symmetry; apply Z.eqb_neq; lia).
        rewrite Nat.add_0_r. reflexivity.
    + rewrite IH. destruct (find_index (contains (L "LIC_FILES_CHKSUM")) ls);
        cbn [option_map]; [f_equal; lia|].
      apply Z.eqb_neq in Ea. rewrite Ea. reflexivity.
    + rewrite IH. destruct (find_index (contains (L "LIC_FILES_CHKSUM")) ls);
        cbn [option_map]; [f_equal; lia|].
      subst acc. rewrite Z.eqb_refl. destruct (find_index (contains (L "DEPENDS")) ls);
        cbn [option_map]; [f_equal; lia|reflexivity].
    + rewrite IH. destruct (find_index (contains (L "LIC_FILES_CHKSUM")) ls);
        cbn [option_map]; [f_equal; lia|].
      apply Z.eqb_neq in Ea. rewrite Ea. reflexivity.
Qed.

(** Tag mode, when the recipe has no [GIT_TAG = ] yet, inserts the tag
    after the first line naming [LIC_FILES_CHKSUM], even when a [DEPENDS]
    line comes earlier; failing that after the first [DEPENDS] line; with
    neither, the index is the sentinel [-1] and nothing is inserted. *)
Theorem insert_index_prefers_license (lines : list text) :
  insert_index lines =
  match find_index (contains (L "LIC_FILES_CHKSUM")) lines with
  | Some i => (Z.of_nat i + 1)%Z
  | None =>
      match find_index (contains (L "DEPENDS")) lines with
      | Some i => (Z.of_nat i + 1)%Z
      | None => (-1)%Z
      end
  end.
Proof. unfold insert_index. rewrite insert_index_go_first. reflexivity. Qed.

(** ** The anchored substitutions, line by line *)

Lemma nl_split (s : text) :
  free nl s = true \/ exists x rest, free nl x = true /\ s = x ++ nl :: rest.
Proof.
  induction s as [|c s [IH|(x & rest & Hx & ->)]]; [left; reflexivity| |].
  - destruct (Ascii.eqb c nl) eqn:E.
    + right. exists [], s. apply Ascii.eqb_eq in E. subst c. split; reflexivity.
    + left. unfold free in *. cbn [forallb]. rewrite E, IH. reflexivity.
  - destruct (Ascii.eqb c nl) eqn:E.
    + right. exists [], (x ++ nl :: rest). apply Ascii.eqb_eq in E. subst c.
      split; reflexivity.
    + right. exists (c :: x), rest. split; [|reflexivity].
      unfold free in *. cbn [forallb]. rewrite E, Hx. reflexivity.
Qed.

Lemma sub_go_bol_false_end (m : matcher) (r x : text) :
  (forall t, m false t = None) -> free nl x = true -> sub_go m r 0 false x = x.
Proof.
  intros Hf. induction x as [|c x IH]; intros Hx; [reflexivity|].
  cbn [sub_go]. rewrite Hf. apply free_cons in Hx as [Hc Hx]. rewrite Hc.
  f_equal. apply IH, Hx.
Qed.

Lemma join_cons (sep : ascii) (a : text) (l : list text) :
  l <> [] -> join sep (a :: l) = a ++ sep :: join sep l.
Proof. destruct l; [congruence|reflexivity]. Qed.

Lemma free_skipn (c : ascii) (n : nat) (t : text) : free c t = true -> free c (skipn n t) = true.
Proof.
  revert t; induction n as [|n IH]; intros t Ht; [exact Ht|].
  destruct t as [|d t]; [reflexivity|]. apply free_cons in Ht as [_ Ht]. apply IH, Ht.
Qed.

(** [re.sub(r'^p', r, s, flags=re.MULTILINE)] for a newline-free [p]
    rewrites each line on its own: a line starting with [p] gets [r] in
    place of it, the others are kept. *)
Lemma sub_go_bol_lines (p r s : text) :
  p <> [] -> free nl p = true ->
  re_sub (m_lit_bol p) r s =
  join nl (map (fun l => if prefixb p l then r ++ skipn (length p) l else l) (split_on nl s)).
Proof.
  intros Hp Hpn. unfold re_sub.
  assert (Hf : forall t, m_lit_bol p false t = None) by reflexivity.
  assert (Ht : forall t, prefixb p t = false -> m_lit_bol p true t = None)
    by (intros t E; unfold m_lit_bol; rewrite E; reflexivity).
  induction s as [s IH] using (induction_ltof1 _ (@length ascii)).
  destruct (nl_split s) as [Hs|(x & rest & Hx & ->)].
  - rewrite (split_on_free nl s Hs). cbn [map join].
    destruct (prefixb p s) eqn:E.
    + destruct (prefixb_true_app p s E) as [u ->].
      rewrite sub_go_match; [| exact Hp | unfold m_lit_bol; rewrite prefixb_app; reflexivity].
      rewrite (bol_after_line true p Hp Hpn), skipn_app_length.
      rewrite free_app in Hs. apply andb_prop in Hs as [_ Hu].
      rewrite sub_go_bol_false_end by assumption. reflexivity.
    + destruct s as [|c s']; [reflexivity|].
      cbn [sub_go]. rewrite (Ht _ E). apply free_cons in Hs as [Hc Hs]. rewrite Hc.
      f_equal. apply sub_go_bol_false_end; assumption.
  - rewrite split_on_app_sep, (split_on_free nl x Hx). cbn [app map].
    rewrite join_cons by (intros H; apply map_eq_nil in H; exact (split_on_nonempty nl rest H)).
    assert (Hlt : ltof text (@length ascii) rest (x ++ nl :: rest))
      by (unfold ltof; rewrite length_app; cbn [length]; lia).
    destruct (prefixb p x) eqn:E.
    + destruct (prefixb_true_app p x E) as [u ->].
      rewrite <- app_assoc.
      rewrite sub_go_match; [| exact Hp | unfold m_lit_bol; rewrite prefixb_app; reflexivity].
      rewrite (bol_after_line true p Hp Hpn), skipn_app_length.
      rewrite free_app in Hx. apply andb_prop in Hx as [_ Hu].
      rewrite sub_go_bol_false, IH by assumption. rewrite <- app_assoc. reflexivity.
    + rewrite (sub_go_free_line_bol (m_lit_bol p) r p true x rest Hf Ht Hp Hpn Hx (or_intror E)).
      rewrite IH by exact Hlt. reflexivity.
Qed.

Lemma split_on_in_free (c : ascii) (s l : text) : In l (split_on c s) -> free c l = true.
Proof.
  revert l; induction s as [|d s IH]; intros l Hl.
  - destruct Hl as [<-|[]]. reflexivity.
  - cbn [split_on] in Hl. destruct (Ascii.eqb d c) eqn:E.
    + destruct Hl as [<-|Hl]; [reflexivity|apply IH, Hl].
    + destruct (split_on c s) as [|x rs] eqn:Es.
      * destruct Hl as [<-|[]]. unfold free. cbn. rewrite E. reflexivity.
      * destruct Hl as [<-|Hl].
        -- unfold free. cbn [forallb]. rewrite E. apply (IH x). left. reflexivity.
        -- apply IH. right. exact Hl.
Qed.

Lemma split_on_join (ls : list text) :
  ls <> [] -> (forall l, In l ls -> free nl l = true) -> split_on nl (join nl ls) = ls.
Proof.
  induction ls as [|a ls IH]; intros Hn H; [congruence|].
  destruct ls as [|b ls].
  - cbn [join]. apply split_on_free, (H a (or_introl eq_refl)).
  - rewrite join_cons by discriminate. rewrite split_on_app_sep.
    rewrite (split_on_free nl a (H a (or_introl eq_refl))).
    rewrite IH; [reflexivity|discriminate|]. intros l Hl. apply H. right. exact Hl.
Qed.

Lemma update_tag_content_last (org repo comp tag branch content d : text) :
  update_tag_content org repo comp tag branch content = Some d ->
  exists c3, d = re_sub (m_lit_bol (L "SRCREV = ")) (L "#SRCREV = ") c3.
Proof.
  unfold update_tag_content. cbv zeta.
  destruct (if negb (contains (L "GIT_TAG = ") content) then _ else _) as [c1|];
    [|discriminate].
  destruct (re_sub_tpl _ _ c1) as [c2|]; [|discriminate].
  intros [= <-]. eexists. reflexivity.
Qed.

(** Tag mode comments out every active [SRCREV]: no line of the text it
    hands to [write_text] starts with [SRCREV = ], whatever the recipe held
    before, and whether or not the run raises. *)
Theorem tag_mode_no_active_srcrev (R : Remote) (org tag repo : text) (bb : bb_path) (comp : text)
    (Ht : is_version_tag tag = true) :
  lines_starting (L "SRCREV = ")
    (written_text (update_bb_file R org tag repo bb comp)) = [].
Proof.
  unfold update_bb_file, written_text. rewrite Ht. cbn [negb andb].
  destruct (bb_exists bb); [|reflexivity]. cbn [negb].
  destruct (bb_read bb) as [content|]; [|reflexivity].
  unfold rewrite_content. rewrite Ht.
  destruct (update_tag_content org repo comp tag (resolve_branch R content org repo tag) content)
    as [d|] eqn:Ed; [|reflexivity].
  apply update_tag_content_last in Ed as [c3 ->].
  replace (written (finish_write bb (Some (re_sub (m_lit_bol (L "SRCREV = ")) (L "#SRCREV = ") c3))))
    with (Some (cleanup (re_sub (m_lit_bol (L "SRCREV = ")) (L "#SRCREV = ") c3)))
    by (unfold finish_write; destruct (bb_write_ok bb); reflexivity).
  rewrite (sub_go_bol_lines (L "SRCREV = ") (L "#SRCREV = ") c3 ltac:(discriminate) eq_refl).
  rewrite lines_starting_words, cleanup_collapse, words_collapse by discriminate.
  apply filter_all_false. intros x Hx. apply words_split in Hx.
  rewrite split_on_join in Hx.
  - apply in_map_iff in Hx as (l & <- & _).
    destruct (prefixb (L "SRCREV = ") l) eqn:E; [reflexivity|exact E].
  - intros H. apply map_eq_nil in H. exact (split_on_nonempty nl c3 H).
  - intros y Hy. apply in_map_iff in Hy as (l & <- & Hl). apply split_on_in_free in Hl.
    destruct (prefixb (L "SRCREV = ") l); [|exact Hl].
    rewrite free_app. apply andb_true_intro. split; [reflexivity|apply free_skipn, Hl].
Qed.

(** Witness: a recipe with an active [SRCREV] line. *)
Lemma tag_mode_no_active_srcrev_witness :
  is_version_tag (L "v2.11.0") = true /\
  lines_starting (L "SRCREV = ")
    (written_text (update_bb_file offline rdkcentral (L "v2.11.0") wan_manager
       (recipe_at (L "SRCREV = " ++ quoted (L "abc") ++ [nl])) WanManager)) = [].
Proof.
  split; [reflexivity|]. apply tag_mode_no_active_srcrev. reflexivity.
Defined.

(** ** What the resolver can answer *)

Lemma all_names_inv (entries : list (option text)) (names : list text) :
  all_names entries = Some names -> entries = map Some names.
Proof.
  revert names; induction entries as [|[n|] es IH]; intros names H; cbn [all_names] in H.
  - injection H as <-. reflexivity.
  - destruct (all_names es) as [ns|] eqn:E; [|discriminate].
    injection H as <-. cbn [map]. rewrite (IH ns eq_refl). reflexivity.
  - discriminate.
Qed.

Lemma pattern_tier_sound (R : Remote) (repo tag b : text) :
  (let branch := _find_branch_by_pattern R repo tag in if truthy branch then branch else None)
  = Some b ->
  b <> [] /\ In b (branch_patterns tag) /\ api_branch_exists R repo b = true.
Proof.
  cbv zeta. unfold _find_branch_by_pattern.
  destruct (find (fun p => _branch_exists R repo p) (branch_patterns tag)) as [[|c b']|] eqn:E;
    cbn [truthy]; try discriminate.
  intros [= <-]. apply find_some in E as [Hin Hx]. split; [discriminate|]. tauto.
Qed.

(** [find_tag_branch] answers only a non-empty branch that is either a
    [releases/] branch of the repository's listing which the compare API
    reports as [identical] to or [behind] the tag's commit, or one of the
    tag's fallback patterns that the API reports to exist. *)
Theorem find_tag_branch_sound (R : Remote) (repo tag b : text) :
  find_tag_branch R repo tag = Some b ->
  b <> [] /\
  ((exists tag_sha names,
      api_tag_ref R repo tag = Some tag_sha /\
      api_branches R repo = Some (map Some names) /\
      In b names /\ startswith b (L "releases/") = true /\
      (api_compare R repo b (_get_commit_sha R repo tag_sha) = Some (L "identical") \/
       api_compare R repo b (_get_commit_sha R repo tag_sha) = Some (L "behind")))
   \/ (In b (branch_patterns tag) /\ api_branch_exists R repo b = true)).
Proof.
  intros H. unfold find_tag_branch in H. cbv zeta in H.
  assert (Hp : (let branch := _find_branch_by_pattern R repo tag in
                if truthy branch then branch else None) = Some b ->
               b <> [] /\ ((exists tag_sha names,
      api_tag_ref R repo tag = Some tag_sha /\
      api_branches R repo = Some (map Some names) /\
      In b names /\ startswith b (L "releases/") = true /\
      (api_compare R repo b (_get_commit_sha R repo tag_sha) = Some (L "identical") \/
       api_compare R repo b (_get_commit_sha R repo tag_sha) = Some (L "behind")))
   \/ (In b (branch_patterns tag) /\ api_branch_exists R repo b = true))).
  { intros E. apply pattern_tier_sound in E as (Hb & Hin & He). split; [exact Hb|].
    right. split; assumption. }
  destruct (_get_tag_sha R repo tag) as [[|c s]|] eqn:Es; cbn [truthy] in H;
    try (apply Hp; exact H).
  destruct (_get_commit_sha R repo (c :: s)) as [|d k] eqn:Ec; cbn [truthy] in H;
    [apply Hp; exact H|].
  destruct (_find_branch_containing_commit R repo (d :: k)) as [[|e b']|] eqn:Ef;
    cbn [truthy] in H; try (apply Hp; exact H).
  injection H as <-. split; [discriminate|]. left.
  unfold _find_branch_containing_commit in Ef.
  destruct (api_branches R repo) as [entries|] eqn:Eb; [|discriminate].
  destruct (all_names entries) as [names|] eqn:En; [|discriminate].
  apply find_some in Ef as [Hin Hc]. apply filter_In in Hin as [Hin Hs].
  exists (c :: s), names.
  split; [exact Es|]. split; [rewrite (all_names_inv entries names En); reflexivity|]. split; [exact Hin|]. split; [exact Hs|].
  rewrite Ec. apply branch_contains_commit_iff, Hc.
Qed.

(** Witness: the listed release branch that holds the tag. *)
Lemma find_tag_branch_sound_witness :
  find_tag_branch listing_remote wan_manager (L "v2.11.0") = Some (L "releases/2.11.0-main") /\
  (L "releases/2.11.0-main" <> [] /\
   ((exists tag_sha names,
      api_tag_ref listing_remote wan_manager (L "v2.11.0") = Some tag_sha /\
      api_branches listing_remote wan_manager = Some (map Some names) /\
      In (L "releases/2.11.0-main") names /\
      startswith (L "releases/2.11.0-main") (L "releases/") = true /\
      (api_compare listing_remote wan_manager (L "releases/2.11.0-main")
         (_get_commit_sha listing_remote wan_manager tag_sha) = Some (L "identical") \/
       api_compare listing_remote wan_manager (L "releases/2.11.0-main")
         (_get_commit_sha listing_remote wan_manager tag_sha) = Some (L "behind")))
    \/ (In (L "releases/2.11.0-main") (branch_patterns (L "v2.11.0")) /\
        api_branch_exists listing_remote wan_manager (L "releases/2.11.0-main") = true))).
Proof.
  split; [vm_compute; reflexivity|]. apply find_tag_branch_sound. vm_compute. reflexivity.
Defined.

(** ** The command line of update_component.py *)

Lemma dry_run_branch_none (R : Remote) (org : text) (bb : bb_path) (repo tag : text) :
  dry_run_branch R org bb repo tag = None <->
  truthy (find_tag_branch R repo tag) = false /\ bb_exists bb = true /\ bb_read bb = None.
Proof.
  unfold dry_run_branch, current_branch_at.
  destruct (find_tag_branch R repo tag) as [[|c b]|]; cbn [truthy];
    destruct (bb_exists bb), (bb_read bb) as [content|];
    try destruct (get_current_branch_from_bb content org repo) as [[|d e]|];
    split; intros H; try discriminate; try reflexivity;
    decompose [and] H; try discriminate; auto.
Qed.

Lemma update_bb_file_invalid (R : Remote) (org spec repo : text) (bb : bb_path) (comp : text) :
  is_version_tag spec = false -> is_release_branch spec = false ->
  update_bb_file R org spec repo bb comp
  = {| raised := false; returned := false; written := None |}.
Proof.
  intros Ht Hb. unfold update_bb_file. rewrite Ht, Hb. destruct (bb_exists bb); reflexivity.
Qed.

(** [main] exits with 0 exactly when the specifier is a version tag or a
    release branch and either it is a dry run that raises nothing (the dry
    run of a tag raises only when the resolver finds no branch and the
    existing recipe cannot be read) or [update_bb_file] returns [True]
    without raising; it writes nothing in a dry run, and otherwise hands to
    [write_text] just what [update_bb_file] does.  The organisation and the
    repository are GitHub names. *)
Theorem main_exit_and_write (R : Remote) (args : main_args)
    (Ho : github_name (arg_org args) = true) (Hr : github_name (arg_repo args) = true) :
  let spec := arg_tag_or_branch args in
  let bb := arg_bb_file args in
  let o := update_bb_file R (arg_org args) spec (arg_repo args) bb (arg_component_name args) in
  (exit_code (main R args) = 0%Z <->
   (is_version_tag spec || is_release_branch spec) = true /\
   ((arg_dry_run args = true /\
     (is_version_tag spec = true ->
      truthy (find_tag_branch R (arg_repo args) spec) = true \/
      bb_exists bb = false \/ bb_read bb <> None)) \/
    (arg_dry_run args = false /\ raised o = false /\ returned o = true)))
  /\ main_written (main R args) = (if arg_dry_run args then None else written o).
Proof.
  cbv zeta. unfold main. cbv zeta.
  destruct (is_version_tag (arg_tag_or_branch args)) eqn:Et,
           (is_release_branch (arg_tag_or_branch args)) eqn:Eb; cbn [negb andb orb].
  4: { rewrite (update_bb_file_invalid _ _ _ _ _ _ Et Eb). cbn [exit_code main_written].
       split; [split; [discriminate|intros [H _]; discriminate]|].
       destruct (arg_dry_run args); reflexivity. }
  all: destruct (arg_dry_run args).
  all: cbn [exit_code main_written].
  all: try (destruct (update_bb_file R (arg_org args) (arg_tag_or_branch args) (arg_repo args)
                        (arg_bb_file args) (arg_component_name args)) as [[] [] w];
            cbn [raised returned]; (split; [|reflexivity]); split; intros H;
            first [discriminate H | reflexivity
                  | split; [reflexivity|right; split; [reflexivity|split; reflexivity]]
                  | decompose [and or] H; discriminate]; fail).
  all: try ((split; [|reflexivity]); split; intros H;
            [split; [reflexivity|left; split; [reflexivity|intros Hf; discriminate Hf]]
            |reflexivity]; fail).
  all: destruct (dry_run_branch R (arg_org args) (arg_bb_file args) (arg_repo args)
                   (arg_tag_or_branch args)) as [b|] eqn:E;
         cbn [exit_code main_written]; (split; [|reflexivity]); split; intros H;
         try reflexivity; try discriminate H.
  all: try (split; [reflexivity|left; split; [reflexivity|intros _]];
    destruct (truthy (find_tag_branch R (arg_repo args) (arg_tag_or_branch args))) eqn:Ef;
      [left; reflexivity|];
    destruct (bb_exists (arg_bb_file args)) eqn:Ee; [|right; left; reflexivity];
    right; right; intros Hn;
    pose proof (proj2 (dry_run_branch_none R (arg_org args) (arg_bb_file args) (arg_repo args)
                         (arg_tag_or_branch args)) (conj Ef (conj Ee Hn))); congruence).
  all: apply dry_run_branch_none in E as (Ef & Ee & En);
    decompose [and or] H; try discriminate;
    match goal with Hi : true = true -> _ |- _ => destruct (Hi eq_refl) as [F|[F|F]] end;
      congruence.
Qed.

(** Witness: a live branch-mode run on an existing recipe. *)
Lemma main_exit_and_write_witness :
  exit_code (main offline {| arg_tag_or_branch := L "releases/1.0.0-main"; arg_repo := wan_manager;
                             arg_bb_file := recipe_at blank_recipe;
                             arg_component_name := WanManager; arg_org := rdkcentral;
                             arg_dry_run := false |}) = 0%Z.
Proof.
  apply (proj2 (proj1 (main_exit_and_write offline
    {| arg_tag_or_branch := L "releases/1.0.0-main"; arg_repo := wan_manager;
       arg_bb_file := recipe_at blank_recipe; arg_component_name := WanManager;
       arg_org := rdkcentral; arg_dry_run := false |} eq_refl eq_refl))).
  split; [reflexivity|]. right. split; [reflexivity|]. vm_compute. split; reflexivity.
Defined.

(** The dry run of a tag writes nothing.  On a recipe that reads, it exits
    with 0 and reports the branch the real run would put into [SRC_URI]
    when the resolver or the recipe's recorded branch gives one; otherwise
    it reports [fallback-pattern], which is not the branch the real run
    writes.  On a missing recipe it exits with 0 and reports the resolver's
    branch or [fallback-pattern]; on a recipe that cannot be read it exits
    with 0 and reports the resolver's branch when there is one, and with 1
    otherwise.  The organisation and the repository are GitHub names. *)
Theorem dry_run_report (R : Remote) (org repo comp tag : text) (bb : bb_path)
    (Ht : is_version_tag tag = true) (Ho : github_name org = true) (Hr : github_name repo = true) :
  let o := main R {| arg_tag_or_branch := tag; arg_repo := repo; arg_bb_file := bb;
                     arg_component_name := comp; arg_org := org; arg_dry_run := true |} in
  let ftb := find_tag_branch R repo tag in
  main_written o = None /\
  (forall content, bb_exists bb = true -> bb_read bb = Some content ->
   exit_code o = 0%Z /\
   (if truthy ftb || truthy (get_current_branch_from_bb content org repo)
    then reported_branch o = Some (resolve_branch R content org repo tag)
    else reported_branch o = Some (L "fallback-pattern") /\
         resolve_branch R content org repo tag <> L "fallback-pattern")) /\
  (bb_exists bb = false ->
   exit_code o = 0%Z /\
   reported_branch o = (if truthy ftb then ftb else Some (L "fallback-pattern"))) /\
  (bb_exists bb = true -> bb_read bb = None ->
   exit_code o = (if truthy ftb then 0%Z else 1%Z) /\
   reported_branch o = (if truthy ftb then ftb else None)).
Proof.
  cbv zeta. unfold main. cbn [arg_tag_or_branch arg_dry_run arg_bb_file arg_org arg_repo].
  rewrite Ht. cbn [negb andb].
  unfold dry_run_branch, resolve_branch, current_branch_at.
  split; [destruct (find_tag_branch R repo tag) as [[|c b]|];
          [destruct (bb_exists bb), (bb_read bb) as [content|];
           try destruct (get_current_branch_from_bb content org repo) as [[|d e]|]..];
          reflexivity|].
  split; [|split].
  - intros content He Hc. rewrite He, Hc.
    destruct (find_tag_branch R repo tag) as [[|c b]|];
      destruct (get_current_branch_from_bb content org repo) as [[|d e]|];
      cbn [truthy orb exit_code reported_branch]; split; try reflexivity;
      split; try reflexivity; discriminate.
  - intros He. rewrite He.
    destruct (find_tag_branch R repo tag) as [[|c b]|]; cbn [truthy exit_code reported_branch];
      split; reflexivity.
  - intros He Hc. rewrite He, Hc.
    destruct (find_tag_branch R repo tag) as [[|c b]|]; cbn [truthy exit_code reported_branch];
      split; reflexivity.
Qed.

(** Witness: offline, with no branch in the recipe. *)
Lemma dry_run_report_witness :
  let o := main offline {| arg_tag_or_branch := L "v2.11.0"; arg_repo := wan_manager;
                           arg_bb_file := recipe_at bare_recipe; arg_component_name := WanManager;
                           arg_org := rdkcentral; arg_dry_run := true |} in
  exit_code o = 0%Z /\ reported_branch o = Some (L "fallback-pattern").
Proof.
  destruct (dry_run_report offline rdkcentral wan_manager WanManager (L "v2.11.0")
              (recipe_at bare_recipe) eq_refl eq_refl eq_refl) as [_ [H _]].
  destruct (H bare_recipe eq_refl eq_refl) as [E1 E2].
  split; [exact E1|]. vm_compute in E2. exact (proj1 E2).
Defined.

(** ** The test harness: reading the current tag *)

Lemma ctg_false_line (x rest : text) :
  free nl x = true ->
  TestComponentUpdates.current_tag_go false (x ++ nl :: rest)
  = TestComponentUpdates.current_tag_go true rest.
Proof.
  induction x as [|c x IH]; intros Hx; [reflexivity|].
  apply free_cons in Hx as [Hc Hx]. cbn [app TestComponentUpdates.current_tag_go].
  rewrite Hc. apply IH, Hx.
Qed.

Lemma ctg_false_end (x : text) :
  free nl x = true -> TestComponentUpdates.current_tag_go false x = [].
Proof.
  induction x as [|c x IH]; intros Hx; [reflexivity|].
  apply free_cons in Hx as [Hc Hx]. cbn [TestComponentUpdates.current_tag_go].
  rewrite Hc. apply IH, Hx.
Qed.

Lemma ctg_no_start (c : ascii) (s : text) :
  prefixb (L "#GIT_TAG = " ++ [dq]) (c :: s) = false ->
  TestComponentUpdates.current_tag_go true (c :: s)
  = TestComponentUpdates.current_tag_go (Ascii.eqb c nl) s.
Proof.
  intros H. cbn [TestComponentUpdates.current_tag_go]. unfold match_lit. rewrite H.
  reflexivity.
Qed.

Lemma ctg_skip_line (l rest : text) :
  free nl l = true -> prefixb (L "#GIT_TAG = " ++ [dq]) l = false ->
  TestComponentUpdates.current_tag_go true (l ++ nl :: rest)
  = TestComponentUpdates.current_tag_go true rest.
Proof.
  intros Hl Hp. destruct l as [|c l'].
  - apply ctg_no_start. reflexivity.
  - rewrite <- app_comm_cons, ctg_no_start.
    + apply free_cons in Hl as [Hc Hl]. rewrite Hc. apply ctg_false_line, Hl.
    + rewrite app_comm_cons. rewrite (prefixb_sep nl); [exact Hp|reflexivity].
Qed.

Lemma take_while_app_stop (f : ascii -> bool) (x : text) (c : ascii) (y : text) :
  forallb f x = true -> f c = false -> take_while f (x ++ c :: y) = x.
Proof.
  intros Hx Hc. induction x as [|d x IH]; cbn [app take_while].
  - rewrite Hc. reflexivity.
  - cbn [forallb] in Hx. apply andb_prop in Hx as [Hd Hx]. rewrite Hd, IH by exact Hx.
    reflexivity.
Qed.

(** The harness reads the tag of the first line starting with
    [#GIT_TAG = <dq>]: with the earlier lines not starting so, it answers
    the quoted text up to the next quote. *)
Theorem get_current_tag_reads (pre : list text) (t post : text)
    (Hpre : forall l, In l pre ->
            free nl l = true /\ prefixb (L "#GIT_TAG = " ++ [dq]) l = false)
    (Ht : free dq t = true) :
  TestComponentUpdates._get_current_tag (unlines pre ++ L "#GIT_TAG = " ++ quoted t ++ post) = t.
Proof.
  unfold TestComponentUpdates._get_current_tag. induction pre as [|l pre IH].
  - cbn [unlines map concat app].
    replace (L "#GIT_TAG = " ++ quoted t ++ post)
      with ((L "#GIT_TAG = " ++ [dq]) ++ t ++ dq :: post)
      by (unfold quoted; rewrite <- !app_assoc; cbn [app]; rewrite <- app_assoc;
          reflexivity).
    assert (Hm : match_lit (L "#GIT_TAG = " ++ [dq])
                   ((L "#GIT_TAG = " ++ [dq]) ++ t ++ dq :: post) = Some (t ++ dq :: post))
      by apply match_lit_app.
    assert (Hs : skip_while (fun d => negb (Ascii.eqb d dq)) (t ++ dq :: post) = dq :: post).
    { rewrite skip_while_app by exact Ht. cbn [skip_while]. rewrite Ascii.eqb_refl.
      reflexivity. }
    destruct ((L "#GIT_TAG = " ++ [dq]) ++ t ++ dq :: post) as [|c s] eqn:E;
      [apply (f_equal (@length ascii)) in E; rewrite !length_app in E; cbn [length] in E; lia|].
    cbn [TestComponentUpdates.current_tag_go]. rewrite Hm, Hs.
    apply take_while_app_stop; [exact Ht|cbn [negb]; rewrite Ascii.eqb_refl; reflexivity].
  - destruct (Hpre l (or_introl eq_refl)) as [Hl Hp].
    cbn [unlines map concat]. rewrite <- !app_assoc. cbn [app].
    rewrite ctg_skip_line by assumption. apply IH.
    intros y Hy. apply Hpre. right. exact Hy.
Qed.

(** Witness: a recipe whose second line holds the tag. *)
Lemma get_current_tag_reads_witness :
  TestComponentUpdates._get_current_tag
    (unlines [L "SUMMARY = x"] ++ L "#GIT_TAG = " ++ quoted (L "v2.10.0") ++ [nl])
  = L "v2.10.0".
Proof.
  apply get_current_tag_reads; [|reflexivity].
  intros l [<-|[]]. split; reflexivity.
Defined.

(** With no line starting with [#GIT_TAG = <dq>], the harness reads the
    empty tag. *)
Theorem get_current_tag_absent (content : text)
    (H : forall l, In l (split_on nl content) ->
         prefixb (L "#GIT_TAG = " ++ [dq]) l = false) :
  TestComponentUpdates._get_current_tag content = [].
Proof.
  unfold TestComponentUpdates._get_current_tag.
  induction content as [s IH] using (induction_ltof1 _ (@length ascii)).
  destruct (nl_split s) as [Hs|(x & rest & Hx & ->)].
  - rewrite (split_on_free nl s Hs) in H. specialize (H s (or_introl eq_refl)).
    destruct s as [|c s']; [reflexivity|]. rewrite ctg_no_start by exact H.
    apply free_cons in Hs as [Hc Hs]. rewrite Hc. apply ctg_false_end, Hs.
  - rewrite split_on_app_sep, (split_on_free nl x Hx) in H.
    rewrite ctg_skip_line by (assumption || apply H; left; reflexivity).
    apply IH; [unfold ltof; rewrite length_app; cbn [length]; lia|].
    intros l Hl. apply H. right. exact Hl.
Qed.

(** Witness: a recipe carrying only an active [GIT_TAG]. *)
Lemma get_current_tag_absent_witness :
  TestComponentUpdates._get_current_tag (git_tag_line (L "v2.10.0") ++ [nl]) = [].
Proof.
  apply get_current_tag_absent. vm_compute. intros l [<-|[<-|[]]]; reflexivity.
Defined.

(** ** The test harness: what it counts and what it writes *)

Lemma print_status_fs (st : text) (self : TestComponentUpdates.tester) :
  TestComponentUpdates.fs (TestComponentUpdates.print_status st self)
  = TestComponentUpdates.fs self.
Proof.
  unfold TestComponentUpdates.print_status.
  destruct (text_eqb st (L "error")); [reflexivity|].
  destruct (text_eqb st (L "warning")); reflexivity.
Qed.

Lemma print_info (self : TestComponentUpdates.tester) :
  TestComponentUpdates.print_status (L "info") self = self.
Proof. reflexivity. Qed.

Lemma print_success (self : TestComponentUpdates.tester) :
  TestComponentUpdates.print_status (L "success") self = self.
Proof. reflexivity. Qed.

Lemma print_warning_errors (self : TestComponentUpdates.tester) :
  TestComponentUpdates.errors (TestComponentUpdates.print_status (L "warning") self)
  = TestComponentUpdates.errors self.
Proof. reflexivity. Qed.

Lemma print_error_errors (self : TestComponentUpdates.tester) :
  TestComponentUpdates.errors (TestComponentUpdates.print_status (L "error") self)
  = S (TestComponentUpdates.errors self).
Proof. reflexivity. Qed.

Ltac tester_simpl :=
  repeat (rewrite print_info in * || rewrite print_success in * ||
          rewrite print_status_fs in * || rewrite print_warning_errors in * ||
          rewrite print_error_errors in *).

Ltac destruct_matches :=
  repeat match goal with
         | |- context [match ?x with _ => _ end] => destruct x
         end.

Lemma tcu_cases (R : Remote) (repo tag_or_branch : text) (dry_run : bool)
    (self : TestComponentUpdates.tester) :
  let r := TestComponentUpdates.test_component_update R repo tag_or_branch dry_run self in
  match TestComponentUpdates.lookup repo TestComponentUpdates.COMPONENTS with
  | None => exists self', r = TestComponentUpdates.Ret (false, self') /\
      TestComponentUpdates.errors self' = S (TestComponentUpdates.errors self) /\ TestComponentUpdates.fs self' = TestComponentUpdates.fs self
  | Some config =>
      match TestComponentUpdates.fs self (TestComponentUpdates.c_bb_file config) with
      | None => exists self', r = TestComponentUpdates.Ret (false, self') /\
          TestComponentUpdates.errors self' = S (TestComponentUpdates.errors self) /\ TestComponentUpdates.fs self' = TestComponentUpdates.fs self
      | Some content =>
          if dry_run then exists self', r = TestComponentUpdates.Ret (true, self') /\
            TestComponentUpdates.errors self' = TestComponentUpdates.errors self /\ TestComponentUpdates.fs self' = TestComponentUpdates.fs self
          else
            let o := update_bb_file R (L "rdkcentral") tag_or_branch repo (recipe_at content)
                       (TestComponentUpdates.c_name config) in
            if raised o then exists fs', r = TestComponentUpdates.Raise fs' /\
              forall p, fs' p = tcu_after self config o p
            else exists self', r = TestComponentUpdates.Ret (returned o, self') /\
              TestComponentUpdates.errors self' = TestComponentUpdates.errors self /\
              forall p, TestComponentUpdates.fs self' p = tcu_after self config o p
      end
  end.
Proof.
  unfold TestComponentUpdates.test_component_update. cbv zeta. tester_simpl.
  destruct (TestComponentUpdates.lookup repo TestComponentUpdates.COMPONENTS) as [config|];
    [|tester_simpl; eexists; split; [reflexivity|split; reflexivity]].
  destruct (TestComponentUpdates.fs self (TestComponentUpdates.c_bb_file config)) as [content|];
    [|tester_simpl; eexists; split; [reflexivity|split; reflexivity]].
  destruct dry_run; cbn [negb].
  - destruct_matches; tester_simpl; eexists; (split; [reflexivity|split; reflexivity]).
  - unfold tcu_after.
    destruct (update_bb_file R (L "rdkcentral") tag_or_branch repo (recipe_at content)
                (TestComponentUpdates.c_name config)) as [[] re [w|]];
      cbn [raised returned written];
      destruct_matches; cbn [TestComponentUpdates.write_text TestComponentUpdates.errors TestComponentUpdates.fs]; tester_simpl;
      eexists; (split; [reflexivity|]); try split; try reflexivity; intros p; reflexivity.
Qed.

(** [test_component_update] fails without writing for a component it does
    not know or whose recipe is missing; otherwise a dry run succeeds
    without writing.  A live run hands to [write_text] of the component's
    recipe just what [update_bb_file] does; it raises when
    [update_bb_file] raises, leaving the files as they are at that point,
    and otherwise answers what [update_bb_file] returns. *)
Theorem test_component_update_outcome (R : Remote) (repo tag_or_branch : text)
    (dry_run : bool) (self : TestComponentUpdates.tester) :
  let r := TestComponentUpdates.test_component_update R repo tag_or_branch dry_run self in
  match TestComponentUpdates.lookup repo TestComponentUpdates.COMPONENTS with
  | None => exists self', r = TestComponentUpdates.Ret (false, self') /\ TestComponentUpdates.fs self' = TestComponentUpdates.fs self
  | Some config =>
      match TestComponentUpdates.fs self (TestComponentUpdates.c_bb_file config) with
      | None => exists self', r = TestComponentUpdates.Ret (false, self') /\ TestComponentUpdates.fs self' = TestComponentUpdates.fs self
      | Some content =>
          if dry_run then exists self', r = TestComponentUpdates.Ret (true, self') /\ TestComponentUpdates.fs self' = TestComponentUpdates.fs self
          else
            let o := update_bb_file R (L "rdkcentral") tag_or_branch repo (recipe_at content)
                       (TestComponentUpdates.c_name config) in
            if raised o then exists fs', r = TestComponentUpdates.Raise fs' /\
              forall p, fs' p = tcu_after self config o p
            else exists self', r = TestComponentUpdates.Ret (returned o, self') /\
              forall p, TestComponentUpdates.fs self' p = tcu_after self config o p
      end
  end.
Proof.
  pose proof (tcu_cases R repo tag_or_branch dry_run self) as H. cbv zeta in *.
  destruct (TestComponentUpdates.lookup repo TestComponentUpdates.COMPONENTS) as [config|];
    [destruct (TestComponentUpdates.fs self (TestComponentUpdates.c_bb_file config)) as [content|];
     [destruct dry_run;
      [|destruct (raised (update_bb_file R (L "rdkcentral") tag_or_branch repo
                            (recipe_at content) (TestComponentUpdates.c_name config)))]|]|].
  all: destruct H as (x & E & H); exists x; split; [exact E|]; tauto.
Qed.

Lemma vif_state (t : text) (self : TestComponentUpdates.tester) :
  TestComponentUpdates.errors (snd (TestComponentUpdates.validate_input_format t self))
  = TestComponentUpdates.errors self + (if valid_spec t then 0 else 1) /\
  TestComponentUpdates.fs (snd (TestComponentUpdates.validate_input_format t self)) = TestComponentUpdates.fs self.
Proof.
  unfold TestComponentUpdates.validate_input_format, valid_spec.
  destruct (is_version_tag t), (is_release_branch t); cbn [negb andb orb snd];
    tester_simpl; split; lia || reflexivity.
Qed.

Lemma validate_all_state (tags : list (text * text)) (self : TestComponentUpdates.tester) :
  (forall r t, In (r, t) tags -> TestComponentUpdates.lookup r TestComponentUpdates.COMPONENTS <> None) ->
  exists self', TestComponentUpdates.validate_all tags self = TestComponentUpdates.Ret self' /\
    TestComponentUpdates.errors self' =
      TestComponentUpdates.errors self + length (filter (fun rt => negb (valid_spec (snd rt))) tags) /\
    TestComponentUpdates.fs self' = TestComponentUpdates.fs self.
Proof.
  revert self; induction tags as [|[r t] tags IH]; intros self Hk.
  - exists self. split; [reflexivity|]. cbn. split; [lia|reflexivity].
  - cbn [TestComponentUpdates.validate_all].
    destruct (TestComponentUpdates.lookup r TestComponentUpdates.COMPONENTS) eqn:El;
      [|exfalso; exact (Hk r t (or_introl eq_refl) El)].
    destruct (vif_state t self) as [He Hf].
    destruct (IH (snd (TestComponentUpdates.validate_input_format t self))) as (s' & E & He' & Hf');
      [intros r' t' Hin; apply (Hk r' t'); right; exact Hin|].
    exists s'. split; [exact E|]. split; [|congruence].
    rewrite He', He. cbn [filter snd]. destruct (valid_spec t); cbn [negb length]; lia.
Qed.

(** The validation loop changes no file; it raises exactly when some
    component named is unknown. *)
Lemma validate_all_run (tags : list (text * text)) (self : TestComponentUpdates.tester) :
  match TestComponentUpdates.validate_all tags self with
  | TestComponentUpdates.Ret self' => TestComponentUpdates.fs self' = TestComponentUpdates.fs self /\
      forall r t, In (r, t) tags -> TestComponentUpdates.lookup r TestComponentUpdates.COMPONENTS <> None
  | TestComponentUpdates.Raise fs' => fs' = TestComponentUpdates.fs self /\
      exists r t, In (r, t) tags /\ TestComponentUpdates.lookup r TestComponentUpdates.COMPONENTS = None
  end.
Proof.
  revert self; induction tags as [|[r t] tags IH]; intros self.
  - split; [reflexivity|]. intros r t [].
  - cbn [TestComponentUpdates.validate_all].
    destruct (TestComponentUpdates.lookup r TestComponentUpdates.COMPONENTS) as [config|] eqn:El.
    + specialize (IH (snd (TestComponentUpdates.validate_input_format t self))).
      destruct (vif_state t self) as [_ Hf].
      destruct (TestComponentUpdates.validate_all tags (snd (TestComponentUpdates.validate_input_format t self))) as [s'|fs'].
      * destruct IH as [H1 H2]. split; [congruence|].
        intros r' t' [[= <- <-]|Hin]; [rewrite El; discriminate|exact (H2 r' t' Hin)].
      * destruct IH as [H1 (r' & t' & Hin & Hl)]. split; [congruence|].
        exists r', t'. split; [right; exact Hin|exact Hl].
    + split; [reflexivity|]. exists r, t. split; [left; reflexivity|exact El].
Qed.

Lemma test_all_dry (R : Remote) (tags : list (text * text)) (self : TestComponentUpdates.tester) :
  exists self', TestComponentUpdates.test_all R tags true self = TestComponentUpdates.Ret self' /\
  TestComponentUpdates.errors self' =
    TestComponentUpdates.errors self +
    length (filter (fun rt => negb (recipe_present (TestComponentUpdates.fs self) (fst rt))) tags) /\
  TestComponentUpdates.fs self' = TestComponentUpdates.fs self.
Proof.
  revert self; induction tags as [|[r t] tags IH]; intros self.
  - exists self. cbn. split; [reflexivity|]. split; [lia|reflexivity].
  - cbn [TestComponentUpdates.test_all].
    pose proof (tcu_cases R r t true self) as Hc. cbv zeta in Hc.
    assert (Hs : exists s1, TestComponentUpdates.test_component_update R r t true self = TestComponentUpdates.Ret (
                              negb (negb (recipe_present (TestComponentUpdates.fs self) r)), s1) /\
                 TestComponentUpdates.errors s1 = TestComponentUpdates.errors self +
                   (if recipe_present (TestComponentUpdates.fs self) r then 0 else 1) /\
                 TestComponentUpdates.fs s1 = TestComponentUpdates.fs self).
    { unfold recipe_present.
      destruct (TestComponentUpdates.lookup r TestComponentUpdates.COMPONENTS);
        [destruct (TestComponentUpdates.fs self _)|];
        destruct Hc as (s1 & E & He & Hf); exists s1; rewrite E;
        (split; [reflexivity|split; [lia|exact Hf]]). }
    destruct Hs as (s1 & E & He & Hf). rewrite E.
    destruct (IH s1) as (s2 & E2 & He2 & Hf2). rewrite Hf in He2.
    exists s2. split; [exact E2|]. split; [|congruence].
    rewrite He2, He. cbn [filter fst].
    destruct (recipe_present (TestComponentUpdates.fs self) r); cbn [negb length]; lia.
Qed.

Lemma run_tests_dry_fs (R : Remote) (tags : list (text * text)) (self : TestComponentUpdates.tester) :
  match TestComponentUpdates.run_tests R tags true self with
  | TestComponentUpdates.Ret (_, self') => TestComponentUpdates.fs self' = TestComponentUpdates.fs self /\
      (TestComponentUpdates.fs self TestComponentUpdates.root_recipe = None \/
       forall r t, In (r, t) tags -> TestComponentUpdates.lookup r TestComponentUpdates.COMPONENTS <> None)
  | TestComponentUpdates.Raise fs' => fs' = TestComponentUpdates.fs self /\ TestComponentUpdates.fs self TestComponentUpdates.root_recipe <> None /\
      exists r t, In (r, t) tags /\ TestComponentUpdates.lookup r TestComponentUpdates.COMPONENTS = None
  end.
Proof.
  unfold TestComponentUpdates.run_tests. cbv zeta. tester_simpl.
  destruct (TestComponentUpdates.fs self TestComponentUpdates.root_recipe) as [root|] eqn:Er;
    [|tester_simpl; split; [reflexivity|left; reflexivity]].
  pose proof (validate_all_run tags self) as Hv.
  destruct (TestComponentUpdates.validate_all tags self) as [s1|fs'];
    [|destruct Hv as [H1 H2]; split; [exact H1|split; [discriminate|exact H2]]].
  destruct Hv as [Hf Hk].
  destruct (0 <? TestComponentUpdates.errors s1); [tester_simpl; split; [exact Hf|right; exact Hk]|].
  tester_simpl. destruct (test_all_dry R tags s1) as (s2 & E & _ & Hf2). rewrite E.
  destruct (TestComponentUpdates.errors s2 =? 0); tester_simpl; (split; [congruence|right; exact Hk]).
Qed.

(** A dry run of the harness never changes a file.  When it answers, the
    file system afterwards is the one it started from, and either the root
    recipe is missing or every component named is known.  It raises (the
    [KeyError] of [COMPONENTS[repo]]) exactly when the root recipe exists
    and some component named is unknown, and then too before any file is
    changed. *)
Theorem run_tests_dry_never_writes (R : Remote) (tags : list (text * text))
    (self : TestComponentUpdates.tester) :
  match TestComponentUpdates.run_tests R tags true self with
  | TestComponentUpdates.Ret (_, self') => TestComponentUpdates.fs self' = TestComponentUpdates.fs self /\
      (TestComponentUpdates.fs self TestComponentUpdates.root_recipe = None \/
       forall r t, In (r, t) tags -> TestComponentUpdates.lookup r TestComponentUpdates.COMPONENTS <> None)
  | TestComponentUpdates.Raise fs' => fs' = TestComponentUpdates.fs self /\ TestComponentUpdates.fs self TestComponentUpdates.root_recipe <> None /\
      exists r t, In (r, t) tags /\ TestComponentUpdates.lookup r TestComponentUpdates.COMPONENTS = None
  end.
Proof. apply run_tests_dry_fs. Qed.

Lemma filter_negb_nil {A} (f : A -> bool) (l : list A) :
  forallb f l = true <-> filter (fun x => negb (f x)) l = [].
Proof.
  induction l as [|a l IH]; [split; reflexivity|].
  cbn [forallb filter]. destruct (f a); cbn [andb negb]; [exact IH|].
  split; discriminate.
Qed.

(** One input that is neither a version tag nor a release branch makes
    the harness fail before any component is tested, so even a live run
    then leaves every file as it was. *)
Theorem run_tests_invalid_input (R : Remote) (tags : list (text * text)) (dry_run : bool)
    (self : TestComponentUpdates.tester) (repo tag_or_branch : text)
    (Hk : forall r t, In (r, t) tags ->
          TestComponentUpdates.lookup r TestComponentUpdates.COMPONENTS <> None)
    (Hin : In (repo, tag_or_branch) tags) (Hv : valid_spec tag_or_branch = false) :
  exists self', TestComponentUpdates.run_tests R tags dry_run self = TestComponentUpdates.Ret (false, self') /\
    TestComponentUpdates.fs self' = TestComponentUpdates.fs self.
Proof.
  unfold TestComponentUpdates.run_tests. cbv zeta. tester_simpl.
  destruct (TestComponentUpdates.fs self TestComponentUpdates.root_recipe);
    [|eexists; split; [reflexivity|tester_simpl; reflexivity]].
  destruct (validate_all_state tags self Hk) as (s1 & E & He & Hf). rewrite E.
  assert (Hp : 0 < length (filter (fun rt => negb (valid_spec (snd rt))) tags)).
  { destruct (filter (fun rt => negb (valid_spec (snd rt))) tags) eqn:F; [|cbn; lia].
    apply filter_negb_nil in F. rewrite forallb_forall in F. specialize (F _ Hin). cbn [snd] in F.
    congruence. }
  replace (0 <? TestComponentUpdates.errors s1) with true by (symmetry; apply Nat.ltb_lt; lia).
  eexists. split; [reflexivity|]. tester_simpl. exact Hf.
Qed.

(** Witness: a live run with the input [1.0]. *)
Lemma run_tests_invalid_input_witness :
  exists self', TestComponentUpdates.run_tests offline [(wan_manager, L "1.0")] false
                  {| TestComponentUpdates.errors := 0; TestComponentUpdates.warnings := 0;
                     TestComponentUpdates.fs := fun _ => Some [] |}
                = TestComponentUpdates.Ret (false, self') /\
    TestComponentUpdates.fs self' = fun _ => Some [].
Proof.
  apply (run_tests_invalid_input offline [(wan_manager, L "1.0")] false
           {| TestComponentUpdates.errors := 0; TestComponentUpdates.warnings := 0;
              TestComponentUpdates.fs := fun _ => Some [] |} wan_manager (L "1.0")).
  - intros r t [[= <- <-]|[]]. discriminate.
  - left. reflexivity.
  - reflexivity.
Defined.

(** A dry run of a fresh harness over known components succeeds exactly
    when the root recipe exists, every input is a version tag or a release
    branch, and the recipe of every component named exists. *)
Theorem run_tests_dry_result (R : Remote) (tags : list (text * text))
    (self : TestComponentUpdates.tester)
    (He : TestComponentUpdates.errors self = 0)
    (Hk : forall r t, In (r, t) tags ->
          TestComponentUpdates.lookup r TestComponentUpdates.COMPONENTS <> None) :
  exists self', TestComponentUpdates.run_tests R tags true self =
    TestComponentUpdates.Ret (match TestComponentUpdates.fs self TestComponentUpdates.root_recipe with
          | Some _ => true | None => false end &&
          forallb (fun rt => valid_spec (snd rt)) tags &&
          forallb (fun rt => recipe_present (TestComponentUpdates.fs self) (fst rt)) tags,
          self').
Proof.
  unfold TestComponentUpdates.run_tests. cbv zeta. tester_simpl.
  destruct (TestComponentUpdates.fs self TestComponentUpdates.root_recipe);
    [|eexists; reflexivity].
  destruct (validate_all_state tags self Hk) as (s1 & E & He1 & Hf). rewrite E.
  cbn [andb]. destruct (forallb (fun rt => valid_spec (snd rt)) tags) eqn:Fv.
  - apply filter_negb_nil in Fv. rewrite Fv, He in He1. cbn [length] in He1.
    rewrite He1. cbn [Nat.ltb Nat.leb]. tester_simpl.
    destruct (test_all_dry R tags s1) as (s2 & E2 & Ht & Hft). rewrite E2.
    rewrite Hf, He1 in Ht.
    destruct (forallb (fun rt => recipe_present (TestComponentUpdates.fs self) (fst rt)) tags) eqn:Fp.
    + apply filter_negb_nil in Fp. rewrite Fp in Ht. cbn [length Nat.add] in Ht.
      rewrite Ht. cbn [Nat.eqb]. tester_simpl. rewrite Ht. eexists. reflexivity.
    + assert (Hn : TestComponentUpdates.errors s2 <> 0).
      { rewrite Ht. cbn [Nat.add]. intros H0. apply length_zero_iff_nil in H0.
        apply filter_negb_nil in H0. congruence. }
      apply Nat.eqb_neq in Hn. rewrite Hn. tester_simpl. cbn [Nat.eqb]. eexists. reflexivity.
  - assert (Hn : 0 < length (filter (fun rt => negb (valid_spec (snd rt))) tags)).
    { destruct (filter (fun rt => negb (valid_spec (snd rt))) tags) eqn:F; [|cbn; lia].
      apply filter_negb_nil in F. congruence. }
    replace (0 <? TestComponentUpdates.errors s1) with true by (symmetry; apply Nat.ltb_lt; lia).
    eexists. reflexivity.
Qed.

(** Witness: every file present, one valid input. *)
Lemma run_tests_dry_result_witness :
  exists self', TestComponentUpdates.run_tests offline [(wan_manager, L "v2.11.0")] true
                  {| TestComponentUpdates.errors := 0; TestComponentUpdates.warnings := 0;
                     TestComponentUpdates.fs := fun _ => Some [] |}
                = TestComponentUpdates.Ret (true, self').
Proof.
  apply (run_tests_dry_result offline [(wan_manager, L "v2.11.0")]
           {| TestComponentUpdates.errors := 0; TestComponentUpdates.warnings := 0;
              TestComponentUpdates.fs := fun _ => Some [] |}).
  - reflexivity.
  - intros r t [[= <- <-]|[]]. discriminate.
Defined.

Lemma forallb_map' {A B} (f : B -> bool) (g : A -> B) (l : list A) :
  forallb f (map g l) = forallb (fun a => f (g a)) l.
Proof. induction l as [|a l IH]; [reflexivity|]. cbn. rewrite IH. reflexivity. Qed.

Lemma harness_known (x : text) (r t : text) :
  In (r, t) (map (fun repo => (repo, x)) (map fst TestComponentUpdates.COMPONENTS)) ->
  TestComponentUpdates.lookup r TestComponentUpdates.COMPONENTS <> None.
Proof.
  intros H. apply in_map_iff in H as (r' & [= <- _] & H).
  cbn [map fst TestComponentUpdates.COMPONENTS] in H.
  repeat destruct H as [<-|H]; try discriminate. destruct H.
Qed.

(** Without [--live-run] the harness changes no file, whatever its
    arguments. *)
Theorem tester_main_dry_never_writes (R : Remote) (args : TestComponentUpdates.targs)
    (fs0 : text -> option text) (Hl : TestComponentUpdates.live_run args = false) :
  snd (TestComponentUpdates.main R args fs0) = fs0.
Proof.
  unfold TestComponentUpdates.main. rewrite Hl. cbn [negb].
  destruct (TestComponentUpdates.list_components args); [reflexivity|]. cbv zeta.
  match goal with |- context [match ?ct with [] => _ | _ :: _ => _ end] => destruct ct end;
    [reflexivity|].
  match goal with |- context [TestComponentUpdates.run_tests R ?tags true ?s] =>
    pose proof (run_tests_dry_fs R tags s) as H;
    destruct (TestComponentUpdates.run_tests R tags true s) as [[b s']|fs'] end;
    exact (proj1 H).
Qed.

(** Witness: the default dry run over all components. *)
Lemma tester_main_dry_never_writes_witness :
  snd (TestComponentUpdates.main offline
         {| TestComponentUpdates.list_components := false;
            TestComponentUpdates.all_components := Some (L "v2.11.0");
            TestComponentUpdates.component_arg := fun _ => None;
            TestComponentUpdates.live_run := false |} (fun _ => Some []))
  = fun _ => Some [].
Proof. apply tester_main_dry_never_writes. reflexivity. Defined.

(** A dry run with [--all-components TAG] exits with 0 exactly when the
    root recipe exists, [TAG] is a version tag or a release branch, and
    the recipes of all six components exist; otherwise with 1. *)
Theorem tester_main_all_components (R : Remote) (args : TestComponentUpdates.targs)
    (fs0 : text -> option text) (tag : text)
    (Hl : TestComponentUpdates.list_components args = false)
    (Ha : TestComponentUpdates.all_components args = Some tag) (Ht : tag <> [])
    (Hd : TestComponentUpdates.live_run args = false) :
  fst (TestComponentUpdates.main R args fs0) =
  if match fs0 TestComponentUpdates.root_recipe with Some _ => true | None => false end &&
     valid_spec tag &&
     forallb (recipe_present fs0) (map fst TestComponentUpdates.COMPONENTS)
  then 0%Z else 1%Z.
Proof.
  unfold TestComponentUpdates.main. rewrite Hl, Ha, Hd. cbv zeta. cbn [negb].
  destruct tag as [|c t]; [congruence|].
  set (tags := map (fun repo => (repo, c :: t)) (map fst TestComponentUpdates.COMPONENTS)).
  destruct (run_tests_dry_result R tags
              {| TestComponentUpdates.errors := 0; TestComponentUpdates.warnings := 0;
                 TestComponentUpdates.fs := fs0 |} eq_refl (harness_known (c :: t)))
    as [s' E].
  replace (match tags with [] => (2%Z, fs0) | _ :: _ =>
             match TestComponentUpdates.run_tests R tags true
                     {| TestComponentUpdates.errors := 0; TestComponentUpdates.warnings := 0;
                        TestComponentUpdates.fs := fs0 |} with
             | TestComponentUpdates.Ret (success, self) =>
                 (if success then 0%Z else 1%Z, TestComponentUpdates.fs self)
             | TestComponentUpdates.Raise fs' => (1%Z, fs')
             end end)
    with (match TestComponentUpdates.run_tests R tags true
                  {| TestComponentUpdates.errors := 0; TestComponentUpdates.warnings := 0;
                     TestComponentUpdates.fs := fs0 |} with
          | TestComponentUpdates.Ret (success, self) => (if success then 0%Z else 1%Z, TestComponentUpdates.fs self)
          | TestComponentUpdates.Raise fs' => (1%Z, fs')
          end) by reflexivity.
  rewrite E. cbn [fst TestComponentUpdates.fs]. unfold tags.
  rewrite !forallb_map'. cbn [fst snd].
  destruct (valid_spec (c :: t)); reflexivity.
Qed.

(** Witness: every recipe present. *)
Lemma tester_main_all_components_witness :
  fst (TestComponentUpdates.main offline
         {| TestComponentUpdates.list_components := false;
            TestComponentUpdates.all_components := Some (L "v2.11.0");
            TestComponentUpdates.component_arg := fun _ => None;
            TestComponentUpdates.live_run := false |} (fun _ => Some []))
  = 0%Z.
Proof.
  rewrite (tester_main_all_components offline _ (fun _ => Some []) (L "v2.11.0"));
    reflexivity || discriminate.
Defined.
